(** * tsv-graph-spec: the validator and the retrieval engine

    A shallow embedding of [tools/graph_validate.py] and
    [tools/graph_search.py], and the properties of the two tools that the
    specification of the repository states.

    Modelling conventions.
    - Text is a [string] of 8-bit characters.  [lower] and the digit class
      of the date pattern are the ASCII ones, which is what Python computes
      on ASCII text.
    - The physical parsing of a tab-separated file is not modelled: a file
      is the list of records that [csv.reader] yields for it (each a list
      of cells), the first one being the header.  [DictReader] builds the
      rows (dictionaries) from them the way the [csv] module does.
    - A Python value that is either a [str] or [None] is a [field]
      ([option string], [None] for Python's [None]).
    - A dictionary whose iteration order matters ([entries], [embeddings])
      is an association list with Python's insertion discipline; a row,
      which is only looked up by column name, is a [gmap].
    - An exception is a value of [exn] carried by [result].
    - Numbers of the similarity computation are binary64 floats
      ([PrimFloat]). *)

From Stdlib Require Import Ascii String Floats.
From Stdlib Require Import Sorting.Sorted Sorting.Permutation.
From stdpp Require Import base option list gmap sets strings pretty.

Open Scope string_scope.
Open Scope list_scope.

(** ** Exceptions *)

Inductive exn : Type :=
| FileNotFoundError (filepath : string)
| KeyError (key : string)
| AttributeError
| ValueError
| TypeError.

Inductive result (A : Type) : Type :=
| Ok (a : A)
| Raise (e : exn).
Arguments Ok {A} a.
Arguments Raise {A} e.

Definition bind {A B} (r : result A) (k : A -> result B) : result B :=
  match r with
  | Ok a => k a
  | Raise e => Raise e
  end.

(** ** Python strings *)

Module Str.

Definition lower_char (c : ascii) : ascii :=
  let n := nat_of_ascii c in
  if (65 <=? n)%nat && (n <=? 90)%nat then ascii_of_nat (n + 32) else c.

(** [s.lower()] *)
Fixpoint lower (s : string) : string :=
  match s with
  | EmptyString => EmptyString
  | String c s' => String (lower_char c) (lower s')
  end.

(** [needle in hay] *)
Fixpoint contains (needle hay : string) : bool :=
  String.prefix needle hay ||
  match hay with
  | EmptyString => false
  | String _ hay' => contains needle hay'
  end.

(** [s.replace(old, new)] for a non-empty [old]: every occurrence of
    [old], found from left to right and never overlapping an earlier
    one, is replaced.  [skip] counts the characters of an occurrence
    that are still to be passed over. *)
Fixpoint replace_from (old new : string) (skip : nat) (s : string) : string :=
  match s with
  | EmptyString => EmptyString
  | String c rest =>
      match skip with
      | S k => replace_from old new k rest
      | O =>
          if String.prefix old s
          then new +:+ replace_from old new (String.length old - 1) rest
          else String c (replace_from old new 0 rest)
      end
  end.

Definition replace (old new s : string) : string := replace_from old new 0 s.

Definition is_digit (c : ascii) : bool :=
  let n := nat_of_ascii c in (48 <=? n)%nat && (n <=? 57)%nat.

(** [\d{n}] at the head of [s]: the rest of [s] when it matches. *)
Fixpoint digits (n : nat) (s : string) : option string :=
  match n with
  | O => Some s
  | S n' =>
      match s with
      | String c s' => if is_digit c then digits n' s' else None
      | EmptyString => None
      end
  end.

(** A literal hyphen at the head of [s]. *)
Definition hyphen (s : string) : option string :=
  match s with
  | String c s' => if Ascii.eqb c "-" then Some s' else None
  | EmptyString => None
  end.

(** One piece of a pattern after another. *)
Definition then_ (p q : string -> option string) (s : string) : option string :=
  match p s with
  | Some rest => q rest
  | None => None
  end.

(** [re.match(r'^\d{4}-\d{2}-\d{2}', s)] is not [None]. *)
Definition match_iso_date (s : string) : bool :=
  match then_ (digits 4) (then_ hyphen (then_ (digits 2) (then_ hyphen (digits 2)))) s with
  | Some _ => true
  | None => false
  end.

End Str.

(** ** Rows and the [csv] module *)

(** A [str] or [None]. *)
Definition field : Type := option string.

(** Truth value of a field: [None] and the empty string are false. *)
Definition truthy (v : field) : bool :=
  match v with
  | Some s => negb (String.eqb s "")
  | None => false
  end.

(** [row.get(key, default)] *)
Definition get (row : gmap string field) (key : string) (default : field) : field :=
  match row !! key with
  | Some v => v
  | None => default
  end.

(** [row[key]] *)
Definition getitem (row : gmap string field) (key : string) : result field :=
  match row !! key with
  | Some v => Ok v
  | None => Raise (KeyError key)
  end.

(** What [csv.reader(f, delimiter='\t')] yields for a file. *)
Definition table : Type := list (list string).

(** The files that exist, by path. *)
Definition filesystem : Type := gmap string table.

Module DictReader.

(** [reader.fieldnames]: the first record, [None] for an empty file. *)
Definition fieldnames (t : table) : option (list string) := head t.

(** The dictionary of one record: [dict(zip(fieldnames, cells))], and
    [None] (the [restval]) under the names a short record leaves out.
    Cells beyond the header go under the key [None], which no lookup by
    column name sees. *)
Definition make_row (names cells : list string) : gmap string field :=
  let d := foldl (fun d kv => <[kv.1 := Some kv.2]> d) ∅ (zip names cells) in
  foldl (fun d k => <[k := None]> d) d (drop (length cells) names).

(** The rows the reader iterates over: empty records are skipped. *)
Definition rows (t : table) : list (gmap string field) :=
  match t with
  | [] => []
  | names :: body => make_row names <$> filter (fun r => r ≠ []) body
  end.

End DictReader.

(** ** Dictionaries in insertion order *)

Module Dict.
Section Dict.
Context {V : Type}.

Definition t : Type := list (field * V).

(** [d[k] = v]: an existing key keeps its place. *)
Fixpoint set (k : field) (v : V) (d : list (field * V)) : list (field * V) :=
  match d with
  | [] => [(k, v)]
  | (k', v') :: d' =>
      if decide (k = k') then (k, v) :: d' else (k', v') :: set k v d'
  end.

Fixpoint lookup (k : field) (d : list (field * V)) : option V :=
  match d with
  | [] => None
  | (k', v') :: d' => if decide (k = k') then Some v' else lookup k d'
  end.

(** [k in d] *)
Definition mem (k : field) (d : list (field * V)) : bool :=
  match lookup k d with Some _ => true | None => false end.

Definition keys (d : list (field * V)) : list field := d.*1.
End Dict.
End Dict.

(** ** [graph_validate.py] *)

Definition REQUIRED_FIELDS : list string :=
  [ "archived_date"; "id"; "type"; "stance"; "timestamp";
    "certainty"; "perspective"; "domain"; "ref1"; "ref2";
    "content"; "relation"; "weight"; "schema"; "semantic_text" ].

Definition VALID_STANCES : gset string :=
  {[ "fact"; "opinion"; "aspiration"; "observation"; "link"; "question"; "protocol" ]}.

Definition VALID_TYPES : gset string := {[ "item"; "link" ]}.

(** The diagnostics of the validator.  Each constructor stands for one of
    the message templates of [validate_graph] and carries the values the
    template interpolates; the row number comes first. *)
Inductive message : Type :=
| FileNotFound (filepath : string)
| NoHeaderRow
| MissingRequiredFields (missing : gset string)
| DuplicateID (row_num : nat) (entry_id : field)
| InvalidStance (row_num : nat) (stance : string)
| InvalidType (row_num : nat) (entry_type : string)
| CertaintyOutOfRange (row_num : nat) (c : float)
| InvalidCertainty (row_num : nat) (certainty : string)
| InvalidArchivedDate (row_num : nat) (archived : string)
| LinkMissingRef1 (row_num : nat)
| LinkMissingRef2 (row_num : nat).

Section Validate.

(** Python's [float(s)] on a string: [None] when it raises [ValueError]. *)
Variable py_float : string -> option float.

(** [0.0 <= c <= 1.0] *)
Definition in_unit_interval (c : float) : bool :=
  ((0 <=? c) && (c <=? 1))%float.

(** The checks of the loop body, each giving the messages it appends. *)

Definition check_id (seen_ids : gset field) (row_num : nat)
    (row : gmap string field) : list message :=
  let entry_id := get row "id" (Some "") in
  if decide (entry_id ∈ seen_ids) then [DuplicateID row_num entry_id] else [].

Definition check_stance (row_num : nat) (row : gmap string field) : list message :=
  match get row "stance" (Some "") with
  | Some stance =>
      if truthy (Some stance) && bool_decide (stance ∉ VALID_STANCES)
      then [InvalidStance row_num stance] else []
  | None => []
  end.

Definition check_type (row_num : nat) (row : gmap string field) : list message :=
  match get row "type" (Some "") with
  | Some entry_type =>
      if truthy (Some entry_type) && bool_decide (entry_type ∉ VALID_TYPES)
      then [InvalidType row_num entry_type] else []
  | None => []
  end.

Definition check_certainty (row_num : nat) (row : gmap string field) : list message :=
  match get row "certainty" (Some "") with
  | Some certainty =>
      if truthy (Some certainty) then
        match py_float certainty with
        | Some c =>
            if negb (in_unit_interval c)
            then [CertaintyOutOfRange row_num c] else []
        | None => [InvalidCertainty row_num certainty]
        end
      else []
  | None => []
  end.

Definition check_archived_date (row_num : nat) (row : gmap string field) : list message :=
  match get row "archived_date" (Some "") with
  | Some archived =>
      if truthy (Some archived) && negb (String.eqb archived "ACTIVE") then
        if negb (Str.match_iso_date archived)
        then [InvalidArchivedDate row_num archived] else []
      else []
  | None => []
  end.

Definition check_link (row_num : nat) (row : gmap string field) : list message :=
  if bool_decide (get row "type" (Some "") = Some "link") then
    (if negb (truthy (get row "ref1" None)) then [LinkMissingRef1 row_num] else [])
    ++ (if negb (truthy (get row "ref2" None)) then [LinkMissingRef2 row_num] else [])
  else [].

Definition row_messages (seen_ids : gset field) (row_num : nat)
    (row : gmap string field) : list message :=
  check_id seen_ids row_num row ++ check_stance row_num row
  ++ check_type row_num row ++ check_certainty row_num row
  ++ check_archived_date row_num row ++ check_link row_num row.

(** One turn of [for row in reader], on [(seen_ids, row_num, errors)]. *)
Definition validate_row (st : gset field * nat * list message)
    (row : gmap string field) : gset field * nat * list message :=
  let '(seen_ids, row_num, errors) := st in
  let row_num := S row_num in
  (seen_ids ∪ {[ get row "id" (Some "") ]}, row_num,
   errors ++ row_messages seen_ids row_num row).

Definition validate_graph (fs : filesystem) (filepath : string) : bool * list message :=
  match fs !! filepath with
  | None => (false, [FileNotFound filepath])
  | Some t =>
      match DictReader.fieldnames t with
      | None => (false, [NoHeaderRow])
      | Some names =>
          let missing : gset string :=
            list_to_set REQUIRED_FIELDS ∖ list_to_set names in
          let errors :=
            if decide (missing ≠ ∅) then [MissingRequiredFields missing] else [] in
          let '(_, _, errors) :=
            foldl validate_row (∅, 1, errors) (DictReader.rows t) in
          (Nat.eqb (length errors) 0, errors)
      end
  end.

End Validate.

(** ** [graph_search.py] *)

(** [row.get('archived_date') == 'ACTIVE'] *)
Definition is_active (row : gmap string field) : bool :=
  bool_decide (get row "archived_date" None = Some "ACTIVE").

(** The loop of [load_graph], on the dictionary [entries]. *)
Fixpoint load_graph_rows (rows : list (gmap string field))
    (entries : list (field * gmap string field))
    : result (list (field * gmap string field)) :=
  match rows with
  | [] => Ok entries
  | row :: rest =>
      if is_active row then
        match getitem row "id" with
        | Ok entry_id => load_graph_rows rest (Dict.set entry_id row entries)
        | Raise e => Raise e
        end
      else load_graph_rows rest entries
  end.

Definition load_graph (fs : filesystem) (filepath : string)
    : result (list (field * gmap string field)) :=
  match fs !! filepath with
  | None => Raise (FileNotFoundError filepath)
  | Some t => load_graph_rows (DictReader.rows t) []
  end.

(** [np.dot] of two vectors of one length, summed from the left. *)
Definition dot (a b : list float) : float :=
  foldl (fun acc xy => (acc + xy.1 * xy.2)%float) 0%float (zip a b).

(** [np.linalg.norm]: the square root of the vector's product with itself. *)
Definition norm (a : list float) : float := PrimFloat.sqrt (dot a a).

(** [np.dot] refuses vectors of different lengths with a [ValueError]; the
    division is IEEE 754's, which raises nothing. *)
Definition cosine_similarity (a b : list float) : result float :=
  if Nat.eqb (length a) (length b)
  then Ok (dot a b / (norm a * norm b))%float
  else Raise ValueError.

(** A result of [search]: [(id, score, entry)]. *)
Definition hit : Type := field * float * gmap string field.

Definition score (h : hit) : float := h.1.2.

(** [l[:k]] *)
Definition slice_to {A} (k : Z) (l : list A) : list A :=
  if (0 <=? k)%Z then take (Z.to_nat k) l
  else take (length l - Z.to_nat (- k)) l.

(** [scores.sort(key=lambda x: x[1], reverse=True)].  Python's sort is
    stable, also when reversed, and compares keys with [<] only: an
    element goes behind those with a strictly greater score and before the
    later elements that are not greater.  On keys that [<] orders totally
    (no NaN among them) every stable sort gives this list.  With a NaN
    among the keys the list Python returns depends on the runs its sort
    finds and can differ from this one, so a sort with a NaN key is
    evaluated below only on an input where the two agree. *)
Fixpoint insert_desc (x : hit) (l : list hit) : list hit :=
  match l with
  | [] => [x]
  | y :: l' =>
      if (score x <? score y)%float then y :: insert_desc x l' else x :: l
  end.

Definition sort_desc (l : list hit) : list hit := foldr insert_desc [] l.

Section Search.

(** [json.loads] on an embedding blob: [None] for [JSONDecodeError]. *)
Variable json_loads : string -> option (list float).

(** The embedding model: [list(model.embed([text]))[0]]. *)
Variable embed : string -> list float.

(** The loop of [load_embeddings], on the dictionary [embeddings]. *)
Fixpoint load_embeddings_rows (rows : list (gmap string field))
    (embeddings : list (field * list float))
    : result (list (field * list float)) :=
  match rows with
  | [] => Ok embeddings
  | row :: rest =>
      match get row "embedding" None with
      | Some blob =>
          if is_active row && truthy (Some blob) then
            match json_loads blob with
            | Some emb =>
                match getitem row "id" with
                | Ok entry_id =>
                    load_embeddings_rows rest (Dict.set entry_id emb embeddings)
                | Raise e => Raise e
                end
            | None => load_embeddings_rows rest embeddings
            end
          else load_embeddings_rows rest embeddings
      | None => load_embeddings_rows rest embeddings
      end
  end.

Definition load_embeddings (fs : filesystem) (filepath : string)
    : result (list (field * list float)) :=
  match fs !! filepath with
  | None => Ok []
  | Some t => load_embeddings_rows (DictReader.rows t) []
  end.

(** The keyword loop: [None.lower()] raises [AttributeError]. *)
Fixpoint keyword_scan (query_lower : string)
    (items : list (field * gmap string field)) (results : list hit)
    : result (list hit) :=
  match items with
  | [] => Ok results
  | (entry_id, entry) :: rest =>
      match get entry "content" (Some "") with
      | Some text =>
          let content := Str.lower text in
          if Str.contains query_lower content
          then keyword_scan query_lower rest (results ++ [(entry_id, 1%float, entry)])
          else keyword_scan query_lower rest results
      | None => Raise AttributeError
      end
  end.

(** The scoring loop over [embeddings.items()]. *)
Fixpoint score_all (query_emb : list float)
    (entries : list (field * gmap string field))
    (items : list (field * list float)) (scores : list hit)
    : result (list hit) :=
  match items with
  | [] => Ok scores
  | (entry_id, emb) :: rest =>
      match Dict.lookup entry_id entries with
      | Some entry =>
          match cosine_similarity query_emb emb with
          | Ok sim => score_all query_emb entries rest (scores ++ [(entry_id, sim, entry)])
          | Raise e => Raise e
          end
      | None => score_all query_emb entries rest scores
      end
  end.

(** The derived path of the file of embeddings. *)
Definition sem_path (graph_path : string) : string :=
  Str.replace ".tsv" "_semantics.tsv" graph_path.

(** [search]: what it prints, and what it returns or raises. *)
Definition search (fs : filesystem) (graph_path query : string) (top_k : Z)
    : list string * result (list hit) :=
  match load_graph fs graph_path with
  | Raise e => ([], Raise e)
  | Ok entries =>
      match load_embeddings fs (sem_path graph_path) with
      | Raise e => ([], Raise e)
      | Ok embeddings =>
          match embeddings with
          | [] =>
              ([ "Warning: No embeddings found in " +:+ sem_path graph_path;
                 "Falling back to keyword search..." ],
               match keyword_scan (Str.lower query) entries [] with
               | Ok results => Ok (slice_to top_k results)
               | Raise e => Raise e
               end)
          | _ :: _ =>
              let query_emb := embed ("search_query: " +:+ query) in
              ([],
               match score_all query_emb entries embeddings [] with
               | Ok scores => Ok (slice_to top_k (sort_desc scores))
               | Raise e => Raise e
               end)
          end
      end
  end.

End Search.

(** ** The command of [graph_validate.py] *)

Section ValidateCommand.

Variable py_float : string -> option float.

(** The text of a message: its template filled in. *)
Variable render : message -> string.


End ValidateCommand.

(** ** [graph_stats.py] *)






Section Stats.

Variable py_float : string -> option float.

(** Python's [sum] on a list of floats.  The length of the list is
    turned into a float through a 63-bit integer, which is exact for
    the lengths a file can give. *)
Variable py_sum : list float -> float.



End Stats.

(** ** Notions of the specification *)

(** The derivation of the companion path as the specification words it:
    the same base name, with "_semantics" put before the trailing
    extension, which starts at the last dot of the path. *)
Fixpoint split_extension (path : string) : string * string :=
  match path with
  | EmptyString => (EmptyString, EmptyString)
  | String c rest =>
      let '(stem, ext) := split_extension rest in
      match ext with
      | EmptyString =>
          if Ascii.eqb c "." then (EmptyString, path) else (String c stem, EmptyString)
      | _ => (String c stem, ext)
      end
  end.

Definition sidecar_by_extension (path : string) : string :=
  let '(stem, ext) := split_extension path in stem +:+ "_semantics" +:+ ext.

(** "Begins with a four-digit year, two-digit month, two-digit day
    separated by hyphens", whatever follows. *)
Fixpoint all_digits (s : string) : bool :=
  match s with
  | EmptyString => true
  | String c s' => Str.is_digit c && all_digits s'
  end.

Definition begins_with_iso_date (s : string) : Prop :=
  exists year month day rest : string,
    s = year +:+ "-" +:+ month +:+ "-" +:+ day +:+ rest
    /\ String.length year = 4 /\ all_digits year = true
    /\ String.length month = 2 /\ all_digits month = true
    /\ String.length day = 2 /\ all_digits day = true.

(** The [id] the validator reads from a row. *)
Definition id_of (row : gmap string field) : field := get row "id" (Some "").

(** The second and later occurrences among the ids of the rows, each with
    the number of its row: the row at index [i] is row [i + 2]. *)
Definition later_occurrences (ids : list field) : list (nat * field) :=
  omap (fun '(i, entry_id) =>
          if decide (entry_id ∈ take i ids) then Some (i + 2, entry_id) else None)
       (imap pair ids).

(** The duplicate-id diagnostics among the messages, in order. *)
Definition duplicate_ids (errors : list message) : list (nat * field) :=
  omap (fun m => match m with
                 | DuplicateID row_num entry_id => Some (row_num, entry_id)
                 | _ => None
                 end) errors.

(** The messages the loop of the validator appends for [rows], when it
    starts with [seen_ids] and [row_num]. *)
Fixpoint loop_messages (py_float : string -> option float)
    (seen_ids : gset field) (row_num : nat)
    (rows : list (gmap string field)) : list message :=
  match rows with
  | [] => []
  | row :: rest =>
      row_messages py_float seen_ids (S row_num) row
      ++ loop_messages py_float (seen_ids ∪ {[ id_of row ]}) (S row_num) rest
  end.

(** A row that violates none of the per-row checks. *)
Definition stance_ok (row : gmap string field) : Prop :=
  match get row "stance" (Some "") with
  | Some stance => stance = "" \/ stance ∈ VALID_STANCES
  | None => True
  end.

Definition type_ok (row : gmap string field) : Prop :=
  match get row "type" (Some "") with
  | Some entry_type => entry_type = "" \/ entry_type ∈ VALID_TYPES
  | None => True
  end.

Definition certainty_ok (py_float : string -> option float)
    (row : gmap string field) : Prop :=
  match get row "certainty" (Some "") with
  | Some certainty =>
      certainty = ""
      \/ exists c, py_float certainty = Some c /\ in_unit_interval c = true
  | None => True
  end.

Definition archived_date_ok (row : gmap string field) : Prop :=
  match get row "archived_date" (Some "") with
  | Some archived =>
      archived = "" \/ archived = "ACTIVE" \/ begins_with_iso_date archived
  | None => True
  end.

Definition link_ok (row : gmap string field) : Prop :=
  get row "type" (Some "") = Some "link" ->
  truthy (get row "ref1" None) = true /\ truthy (get row "ref2" None) = true.

Definition row_ok (py_float : string -> option float)
    (row : gmap string field) : Prop :=
  stance_ok row /\ type_ok row /\ certainty_ok py_float row
  /\ archived_date_ok row /\ link_ok row.

(** The similarity as a number: the dot product divided by the product of
    the two Euclidean norms. *)
Definition cosine (a b : list float) : float :=
  (dot a b / (norm a * norm b))%float.

(** The ids that are in both dictionaries, in the order of the embeddings,
    each with its similarity to the query vector and its entry. *)
Definition scored (query_emb : list float)
    (entries : list (field * gmap string field))
    (embeddings : list (field * list float)) : list hit :=
  omap (fun '(entry_id, emb) =>
          match Dict.lookup entry_id entries with
          | Some entry => Some (entry_id, cosine query_emb emb, entry)
          | None => None
          end) embeddings.

(** The active entries whose content holds the query, case-insensitively,
    in the order of the dictionary and each with the score 1.0. *)
Definition content_of (entry : gmap string field) : field :=
  get entry "content" (Some "").

Definition keyword_matches (query : string)
    (entries : list (field * gmap string field)) : list hit :=
  omap (fun '(entry_id, entry) =>
          match content_of entry with
          | Some text =>
              if Str.contains (Str.lower query) (Str.lower text)
              then Some (entry_id, 1%float, entry) else None
          | None => None
          end) entries.

(** A vector all of whose components are zeros. *)
Definition zero_vector (a : list float) : bool := forallb PrimFloat.is_zero a.

(** A float that is a zero or a NaN. *)
Definition zero_or_nan (x : float) : Prop :=
  match Prim2SF x with
  | S754_zero _ | S754_nan => True
  | _ => False
  end.

(** An instance of [float] on plain decimal literals: an optional minus
    sign, digits, and at most one point.  The quotient of the digits read
    as an integer by the power of ten of the fraction is rounded once, as
    Python rounds the literal, while both are exact binary64 numbers. *)
Fixpoint read_decimal (s : string) (seen_point any_digit : bool)
    (mantissa scale : Z) : option (Z * Z) :=
  match s with
  | EmptyString => if any_digit then Some (mantissa, scale) else None
  | String c s' =>
      if Ascii.eqb c "." then
        if seen_point then None
        else read_decimal s' true any_digit mantissa scale
      else if Str.is_digit c then
        read_decimal s' seen_point true
          (10 * mantissa + (Z.of_nat (nat_of_ascii c) - 48))%Z
          (if seen_point then 10 * scale else scale)%Z
      else None
  end.

Definition float_of_Z (n : Z) : float := PrimFloat.of_uint63 (Uint63.of_Z n).

Definition decimal_float (s : string) : option float :=
  let '(negative, body) :=
    match s with
    | String c rest => if Ascii.eqb c "-" then (true, rest) else (false, s)
    | EmptyString => (false, s)
    end in
  match read_decimal body false false 0 1 with
  | Some (mantissa, scale) =>
      let x := (float_of_Z mantissa / float_of_Z scale)%float in
      Some (if negative then (- x)%float else x)
  | None => None
  end.

(** The messages about the header. *)
Definition header_messages (names : list string) : list message :=
  let missing : gset string := list_to_set REQUIRED_FIELDS ∖ list_to_set names in
  if decide (missing ≠ ∅) then [MissingRequiredFields missing] else [].

(** The row number a message is annotated with. *)
Definition row_of (m : message) : option nat :=
  match m with
  | FileNotFound _ | NoHeaderRow | MissingRequiredFields _ => None
  | DuplicateID n _ | InvalidStance n _ | InvalidType n _
  | CertaintyOutOfRange n _ | InvalidCertainty n _
  | InvalidArchivedDate n _ | LinkMissingRef1 n | LinkMissingRef2 n => Some n
  end.

(** The ids the loop has seen when it reaches the row at index [i]. *)
Definition seen_before (seen_ids : gset field)
    (rows : list (gmap string field)) (i : nat) : gset field :=
  seen_ids ∪ list_to_set (id_of <$> take i rows).

(** The check a message comes from. *)
Inductive kind : Type :=
| Header | Duplicate | Stance | EntryType | Certainty | ArchivedDate | Link.

Definition kind_of (m : message) : kind :=
  match m with
  | FileNotFound _ | NoHeaderRow | MissingRequiredFields _ => Header
  | DuplicateID _ _ => Duplicate
  | InvalidStance _ _ => Stance
  | InvalidType _ _ => EntryType
  | CertaintyOutOfRange _ _ | InvalidCertainty _ _ => Certainty
  | InvalidArchivedDate _ _ => ArchivedDate
  | LinkMissingRef1 _ | LinkMissingRef2 _ => Link
  end.

(** What [float] gives on the literals the specification names. *)
Definition reads_the_literals (py_float : string -> option float) : Prop :=
  py_float "0.0" = Some 0%float
  /\ py_float "1.0" = Some 1%float
  /\ py_float "1.1" = Some 0x1.199999999999ap+0%float
  /\ py_float "-0.1" = Some (- 0x1.999999999999ap-4)%float
  /\ py_float "abc" = None.

(** The place of a float that is no NaN in the order of [<]: the class
    (negative infinity, negative, zero, positive, positive infinity), then
    the exponent and the mantissa, both negated for a negative number. *)
Definition rank (f : spec_float) : Z * Z * Z :=
  match f with
  | S754_nan => (0, 0, 0)%Z
  | S754_zero _ => (0, 0, 0)%Z
  | S754_infinity true => (-2, 0, 0)%Z
  | S754_infinity false => (2, 0, 0)%Z
  | S754_finite true m e => (-1, - e, Z.neg m)%Z
  | S754_finite false m e => (1, e, Z.pos m)%Z
  end.

Definition lex_lt (p q : Z * Z * Z) : Prop :=
  (p.1.1 < q.1.1
   \/ (p.1.1 = q.1.1 /\ (p.1.2 < q.1.2 \/ (p.1.2 = q.1.2 /\ p.2 < q.2))))%Z.

(** No score of the list is a NaN. *)
Definition no_nan (l : list hit) : Prop :=
  Forall (fun h => PrimFloat.is_nan (score h) = false) l.

(** No element of the list has a score below that of a later element. *)
Definition descending (l : list hit) : Prop :=
  StronglySorted (fun x y => (score y <=? score x)%float = true) l.

(** What [load_graph] keeps of its dictionary: no key twice, and every
    entry an active row filed under its own [id]. *)
Definition store_ok (entries : list (field * gmap string field)) : Prop :=
  NoDup entries.*1
  /\ forall k row, (k, row) ∈ entries ->
       is_active row = true /\ row !! "id" = Some k.

(** The place of a message in the report: the header comes first, then
    the rows in order, and within a row the checks in the order of the
    loop body. *)
Definition position (m : message) : nat :=
  match m with
  | FileNotFound _ | NoHeaderRow | MissingRequiredFields _ => 0
  | DuplicateID n _ => 8 * n
  | InvalidStance n _ => 8 * n + 1
  | InvalidType n _ => 8 * n + 2
  | CertaintyOutOfRange n _ | InvalidCertainty n _ => 8 * n + 3
  | InvalidArchivedDate n _ => 8 * n + 4
  | LinkMissingRef1 n => 8 * n + 5
  | LinkMissingRef2 n => 8 * n + 6
  end.



(** ** Sample files *)

(** The cells of a record under the header [REQUIRED_FIELDS]. *)
Definition sample_record (archived_date id type stance certainty ref1 ref2
    content : string) : list string :=
  [ archived_date; id; type; stance; "2024-01-01T00:00:00"; certainty;
    "self"; "test"; ref1; ref2; content; ""; ""; ""; "" ].

(** A file with a repeated id, certainties in and out of range, and dates
    in and out of format. *)
Definition sample_graph : table :=
  [ REQUIRED_FIELDS;
    sample_record "ACTIVE" "a1" "item" "fact" "0.0" "" "" "Hello World";
    sample_record "ACTIVE" "a2" "item" "opinion" "1.0" "" "" "goodbye";
    sample_record "2024-01-15" "a1" "item" "fact" "1.1" "" "" "hello again";
    sample_record "2024-1-15" "a3" "link" "link" "-0.1" "" "a2" "";
    sample_record "not-a-date" "" "item" "" "abc" "" "" "";
    sample_record "ACTIVE" "" "item" "fact" "" "" "" "HELLO" ].

(** A file that passes every check. *)
Definition sample_valid : table :=
  [ REQUIRED_FIELDS;
    sample_record "ACTIVE" "a1" "item" "fact" "0.5" "" "" "Hello World";
    sample_record "2024-01-15" "a2" "item" "" "" "" "" "retired";
    sample_record "ACTIVE" "l1" "link" "link" "1.0" "a1" "a2" "" ].

(** A file whose header declares no [id] column. *)
Definition no_id_file : table :=
  [ ["archived_date"; "content"]; ["2024-01-15"; "old"]; ["ACTIVE"; "hello"] ].

(** A file of embeddings for [sample_graph]: one vector orthogonal to the
    query vector of [sample_embed] and one identical to it, a vector for
    an id that is no active record, a blob that does not decode, and an
    archived row. *)
Definition sample_semantics : table :=
  [ ["archived_date"; "id"; "embedding"];
    ["ACTIVE"; "a2"; "[0.0, 1.0]"];
    ["ACTIVE"; "a1"; "[1.0, 0.0]"];
    ["ACTIVE"; "ghost"; "[1.0, 0.0]"];
    ["ACTIVE"; "a2"; "not json"];
    ["2024-01-15"; "a1"; "[0.0, 1.0]"] ].

Definition sample_json_loads (blob : string) : option (list float) :=
  if String.eqb blob "[1.0, 0.0]" then Some [1; 0]%float
  else if String.eqb blob "[0.0, 1.0]" then Some [0; 1]%float
  else None.

Definition sample_embed (text : string) : list float := [1; 0]%float.

(** [sample_graph] alone, and with its file of embeddings. *)
Definition sample_files : filesystem := {[ "graph.tsv" := sample_graph ]}.

Definition sample_files_with_embeddings : filesystem :=
  <[ "graph_semantics.tsv" := sample_semantics ]> sample_files.

(** The active rows of [sample_graph], as [load_graph] files them. *)
Definition sample_entries : list (field * gmap string field) :=
  [ (Some "a1", DictReader.make_row REQUIRED_FIELDS
       (sample_record "ACTIVE" "a1" "item" "fact" "0.0" "" "" "Hello World"));
    (Some "a2", DictReader.make_row REQUIRED_FIELDS
       (sample_record "ACTIVE" "a2" "item" "opinion" "1.0" "" "" "goodbye"));
    (Some "", DictReader.make_row REQUIRED_FIELDS
       (sample_record "ACTIVE" "" "item" "fact" "" "" "" "HELLO")) ].

(** The vectors [load_embeddings] keeps of [sample_semantics]. *)
Definition sample_embeddings : list (field * list float) :=
  [ (Some "a2", [0; 1]%float); (Some "a1", [1; 0]%float);
    (Some "ghost", [1; 0]%float) ].

(** What the semantic search answers on the samples. *)
Definition sample_hits : list hit :=
  [ (Some "a1", 1%float, DictReader.make_row REQUIRED_FIELDS
       (sample_record "ACTIVE" "a1" "item" "fact" "0.0" "" "" "Hello World"));
    (Some "a2", 0%float, DictReader.make_row REQUIRED_FIELDS
       (sample_record "ACTIVE" "a2" "item" "opinion" "1.0" "" "" "goodbye")) ].

(** Three active records, and embeddings for them of which the second is
    the zero vector. *)
Definition zero_vector_graph : table :=
  [ REQUIRED_FIELDS;
    sample_record "ACTIVE" "a1" "item" "fact" "" "" "" "first";
    sample_record "ACTIVE" "a2" "item" "fact" "" "" "" "second";
    sample_record "ACTIVE" "a3" "item" "fact" "" "" "" "third" ].

Definition zero_vector_semantics : table :=
  [ ["archived_date"; "id"; "embedding"];
    ["ACTIVE"; "a1"; "[0.0, 1.0]"];
    ["ACTIVE"; "a2"; "[0.0, 0.0]"];
    ["ACTIVE"; "a3"; "[1.0, 0.0]"] ].

Definition zero_vector_json_loads (blob : string) : option (list float) :=
  if String.eqb blob "[0.0, 0.0]" then Some [0; 0]%float
  else sample_json_loads blob.

Definition zero_vector_files : filesystem :=
  <[ "graph_semantics.tsv" := zero_vector_semantics ]>
    {[ "graph.tsv" := zero_vector_graph ]}.





Definition sample_short_record : table :=
  [ REQUIRED_FIELDS;
    sample_record "ACTIVE" "a1" "item" "fact" "" "" "" "Hello World";
    ["ACTIVE"; "a2"; "item"] ].


(** * Properties *)

(** ** Strings *)

Section Strings.

Lemma contains_cons (needle : string) (c : ascii) (hay : string) :
  Str.contains needle (String c hay) = false ->
  String.prefix needle (String c hay) = false /\ Str.contains needle hay = false.
Proof.
  cbn [Str.contains]. intros H. apply orb_false_iff in H. exact H.
Qed.

Lemma replace_absent (old new s : string) :
  Str.contains old s = false -> Str.replace old new s = s.
Proof.
  unfold Str.replace. induction s as [|c s IH]; intros H; [reflexivity|].
  apply contains_cons in H as [Hp Hc].
  cbn [Str.replace_from]. rewrite Hp, IH; auto.
Qed.

Lemma prefix_cons (a b : ascii) (s1 s2 : string) :
  String.prefix (String a s1) (String b s2)
  = if ascii_dec a b then String.prefix s1 s2 else false.
Proof. reflexivity. Qed.

Lemma append_cons (c : ascii) (s t : string) :
  String c s +:+ t = String c (s +:+ t).
Proof. reflexivity. Qed.

Lemma append_nil (t : string) : "" +:+ t = t.
Proof. reflexivity. Qed.

Lemma prefix_tsv_app (s : string) :
  s <> "" ->
  String.prefix ".tsv" (s +:+ ".tsv") = String.prefix ".tsv" s.
Proof.
  intros Hs.
  destruct s as [|c1 [|c2 [|c3 [|c4 s]]]]; [done|..]; rewrite ?append_cons, ?append_nil;
    rewrite ?prefix_cons;
    repeat match goal with
           | |- context [ascii_dec ?a ?b] =>
               destruct (ascii_dec a b); try discriminate; subst
           end;
    try reflexivity; destruct s; reflexivity.
Qed.

Lemma replace_trailing_tsv (base : string) :
  Str.contains ".tsv" base = false ->
  Str.replace ".tsv" "_semantics.tsv" (base +:+ ".tsv") = base +:+ "_semantics.tsv".
Proof.
  unfold Str.replace. induction base as [|c base IH]; intros H; [reflexivity|].
  apply contains_cons in H as [Hp Hc].
  change (String c base +:+ ".tsv") with (String c (base +:+ ".tsv")).
  cbn [Str.replace_from].
  change (String c (base +:+ ".tsv")) with (String c base +:+ ".tsv").
  rewrite prefix_tsv_app, Hp by discriminate.
  rewrite IH by exact Hc. reflexivity.
Qed.
End Strings.

(** ** The reader and the record store *)

Section Reader.

Lemma lookup_foldl_cells (d : gmap string field) (kvs : list (string * string)) (k : string) :
  k ∉ kvs.*1 ->
  foldl (fun d kv => <[kv.1 := Some kv.2]> d) d kvs !! k = d !! k.
Proof.
  revert d. induction kvs as [|[k' v] kvs IH]; intros d Hk; [reflexivity|].
  cbn [foldl]. rewrite fmap_cons in Hk. apply not_elem_of_cons in Hk as [Hne Hk].
  rewrite IH by exact Hk. cbn. by rewrite lookup_insert_ne.
Qed.

Lemma lookup_foldl_restval (d : gmap string field) (ks : list string) (k : string) :
  k ∉ ks ->
  foldl (fun d k => <[k := None]> d) d ks !! k = d !! k.
Proof.
  revert d. induction ks as [|k' ks IH]; intros d Hk; [reflexivity|].
  cbn [foldl]. apply not_elem_of_cons in Hk as [Hne Hk].
  rewrite IH by exact Hk. by rewrite lookup_insert_ne.
Qed.

Lemma zip_fst_subseteq {A B} (l : list A) (k : list B) (x : A) :
  x ∈ (zip l k).*1 -> x ∈ l.
Proof.
  revert k. induction l as [|a l IH]; intros [|b k]; cbn; try (by inversion 1).
  rewrite !elem_of_cons. intros [->|H]; [by left|right; eauto].
Qed.

(** A column the header does not declare is absent from every row. *)
Lemma make_row_undeclared (names cells : list string) (k : string) :
  k ∉ names -> DictReader.make_row names cells !! k = None.
Proof.
  intros Hk. unfold DictReader.make_row.
  rewrite lookup_foldl_restval, lookup_foldl_cells.
  - apply lookup_empty.
  - intros H. apply Hk. eapply zip_fst_subseteq, H.
  - intros H. apply Hk. eapply list_elem_of_lookup in H as [i H].
    rewrite lookup_drop in H. eapply list_elem_of_lookup_2, H.
Qed.

Lemma rows_undeclared (t : table) (names : list string) (k : string)
    (row : gmap string field) :
  DictReader.fieldnames t = Some names -> k ∉ names ->
  row ∈ DictReader.rows t -> row !! k = None.
Proof.
  destruct t as [|names' body]; [discriminate|].
  intros [= ->] Hk Hrow. cbn in Hrow.
  apply list_elem_of_fmap in Hrow as (cells & -> & _).
  by apply make_row_undeclared.
Qed.
End Reader.

Section LoadGraph.

Lemma load_graph_rows_no_id (rows : list (gmap string field))
    (entries : list (field * gmap string field)) :
  (forall row, row ∈ rows -> row !! "id" = None) ->
  (exists row, row ∈ rows /\ is_active row = true) ->
  load_graph_rows rows entries = Raise (KeyError "id").
Proof.
  revert entries. induction rows as [|row rows IH]; intros entries Hid [r [Hr Hact]].
  - by apply elem_of_nil in Hr.
  - cbn [load_graph_rows]. destruct (is_active row) eqn:Hrow.
    + unfold getitem. rewrite (Hid row) by left. reflexivity.
    + apply IH.
      * intros r' Hr'. apply Hid. by right.
      * apply elem_of_cons in Hr as [->|Hr]; [congruence|]. eauto.
Qed.

Lemma load_graph_rows_none_active (rows : list (gmap string field))
    (entries : list (field * gmap string field)) :
  (forall row, row ∈ rows -> is_active row = false) ->
  load_graph_rows rows entries = Ok entries.
Proof.
  revert entries. induction rows as [|row rows IH]; intros entries H; [reflexivity|].
  cbn [load_graph_rows]. rewrite (H row) by left. apply IH.
  intros r Hr. apply H. by right.
Qed.
End LoadGraph.


(** ** The loop of the validator *)

Section Validator.

Variable py_float : string -> option float.

Lemma foldl_validate_row (rows : list (gmap string field))
    (seen_ids : gset field) (row_num : nat) (errors : list message) :
  foldl (validate_row py_float) (seen_ids, row_num, errors) rows
  = (seen_ids ∪ list_to_set (id_of <$> rows), row_num + length rows,
     errors ++ loop_messages py_float seen_ids row_num rows).
Proof.
  revert seen_ids row_num errors.
  induction rows as [|row rows IH]; intros seen_ids row_num errors.
  - cbn. f_equal; [f_equal|]; [set_solver|lia|by rewrite app_nil_r].
  - cbn [foldl validate_row]. rewrite IH. cbn [loop_messages fmap list_fmap length].
    fold (id_of row). f_equal; [f_equal|].
    + set_solver.
    + lia.
    + by rewrite <- app_assoc.
Qed.

(** The result of the validator on a file that has a header. *)
Lemma validate_graph_with_header (fs : filesystem) (filepath : string)
    (t : table) (names : list string) :
  fs !! filepath = Some t ->
  DictReader.fieldnames t = Some names ->
  let errors :=
    header_messages names
    ++ loop_messages py_float ∅ 1 (DictReader.rows t) in
  validate_graph py_float fs filepath = (Nat.eqb (length errors) 0, errors).
Proof.
  intros Hfs Hnames. unfold validate_graph. rewrite Hfs, Hnames.
  rewrite foldl_validate_row. reflexivity.
Qed.

Lemma check_id_row_of seen_ids row_num row m :
  m ∈ check_id seen_ids row_num row -> row_of m = Some row_num.
Proof.
  unfold check_id. case_decide; [|by intros ?%elem_of_nil].
  by intros ->%list_elem_of_singleton.
Qed.

Lemma check_stance_row_of row_num row m :
  m ∈ check_stance row_num row -> row_of m = Some row_num.
Proof.
  unfold check_stance. repeat case_match; try (by intros ?%elem_of_nil).
  by intros ->%list_elem_of_singleton.
Qed.

Lemma check_type_row_of row_num row m :
  m ∈ check_type row_num row -> row_of m = Some row_num.
Proof.
  unfold check_type. repeat case_match; try (by intros ?%elem_of_nil).
  by intros ->%list_elem_of_singleton.
Qed.

Lemma check_certainty_row_of row_num row m :
  m ∈ check_certainty py_float row_num row -> row_of m = Some row_num.
Proof.
  unfold check_certainty. repeat case_match; try (by intros ?%elem_of_nil);
    by intros ->%list_elem_of_singleton.
Qed.

Lemma check_archived_date_row_of row_num row m :
  m ∈ check_archived_date row_num row -> row_of m = Some row_num.
Proof.
  unfold check_archived_date. repeat case_match; try (by intros ?%elem_of_nil).
  by intros ->%list_elem_of_singleton.
Qed.

Lemma check_link_row_of row_num row m :
  m ∈ check_link row_num row -> row_of m = Some row_num.
Proof.
  unfold check_link. repeat case_match;
    rewrite ?elem_of_app, ?elem_of_cons, ?elem_of_nil; intuition (by subst).
Qed.

Lemma row_messages_row_of (seen_ids : gset field) (row_num : nat)
    (row : gmap string field) (m : message) :
  m ∈ row_messages py_float seen_ids row_num row -> row_of m = Some row_num.
Proof.
  unfold row_messages. rewrite !elem_of_app.
  intros [H|[H|[H|[H|[H|H]]]]];
    eauto using check_id_row_of, check_stance_row_of, check_type_row_of,
      check_certainty_row_of, check_archived_date_row_of, check_link_row_of.
Qed.

Lemma header_messages_row_of (names : list string) (m : message) :
  m ∈ header_messages names -> row_of m = None.
Proof.
  unfold header_messages. case_decide; [|by intros ?%elem_of_nil].
  intros ->%list_elem_of_singleton. reflexivity.
Qed.

Lemma loop_messages_elem (m : message) (rows : list (gmap string field))
    (seen_ids : gset field) (row_num : nat) :
  m ∈ loop_messages py_float seen_ids row_num rows
  <-> exists i row,
        rows !! i = Some row
        /\ m ∈ row_messages py_float (seen_before seen_ids rows i)
                 (row_num + 1 + i) row.
Proof.
  revert seen_ids row_num.
  induction rows as [|r rows IH]; intros seen_ids row_num; cbn [loop_messages].
  - rewrite elem_of_nil. split; [done|]. by intros (i & row & ? & _).
  - rewrite elem_of_app, IH. split.
    + intros [H|(i & row & Hi & H)].
      * exists 0, r. split; [done|].
        replace (seen_before seen_ids (r :: rows) 0) with seen_ids
          by (unfold seen_before; cbn; set_solver).
        by replace (row_num + 1 + 0) with (S row_num) by lia.
      * exists (S i), row. split; [done|].
        replace (seen_before seen_ids (r :: rows) (S i))
          with (seen_before (seen_ids ∪ {[id_of r]}) rows i)
          by (unfold seen_before; cbn; set_solver).
        by replace (row_num + 1 + S i) with (S row_num + 1 + i) by lia.
    + intros ([|i] & row & Hi & H).
      * left. injection Hi as ->.
        replace (seen_before seen_ids (row :: rows) 0) with seen_ids in H
          by (unfold seen_before; cbn; set_solver).
        by replace (row_num + 1 + 0) with (S row_num) in H by lia.
      * right. exists i, row. split; [done|].
        replace (seen_before seen_ids (r :: rows) (S i))
          with (seen_before (seen_ids ∪ {[id_of r]}) rows i) in H
          by (unfold seen_before; cbn; set_solver).
        by replace (row_num + 1 + S i) with (S row_num + 1 + i) in H by lia.
Qed.

(** A message annotated with the number of a row is one of the messages
    the checks give for that row. *)
Lemma validate_graph_messages_of_row (fs : filesystem) (filepath : string)
    (t : table) (names : list string) (i : nat) (row : gmap string field)
    (m : message) :
  fs !! filepath = Some t ->
  DictReader.fieldnames t = Some names ->
  DictReader.rows t !! i = Some row ->
  row_of m = Some (i + 2) ->
  m ∈ (validate_graph py_float fs filepath).2
  <-> m ∈ row_messages py_float (seen_before ∅ (DictReader.rows t) i) (i + 2) row.
Proof.
  intros Hfs Hnames Hrow Hm.
  rewrite (validate_graph_with_header fs filepath t names Hfs Hnames). cbn [snd].
  rewrite elem_of_app, loop_messages_elem. split.
  - intros [H|(j & r & Hj & H)].
    + apply header_messages_row_of in H. congruence.
    + pose proof (row_messages_row_of _ _ _ _ H) as Hn.
      assert (j = i) as -> by (rewrite Hm in Hn; injection Hn; lia).
      replace (1 + 1 + i) with (i + 2) in H by lia. congruence.
  - intros H. right. exists i, row. split; [done|].
    by replace (1 + 1 + i) with (i + 2) by lia.
Qed.

End Validator.

(** ** The messages of a row, check by check *)

Section Checks.

Variable py_float : string -> option float.

Lemma duplicate_ids_app (l k : list message) :
  duplicate_ids (l ++ k) = duplicate_ids l ++ duplicate_ids k.
Proof. apply omap_app. Qed.

Lemma duplicate_ids_header (names : list string) :
  duplicate_ids (header_messages names) = [].
Proof. unfold header_messages. by case_decide. Qed.

Lemma duplicate_ids_row (seen_ids : gset field) (row_num : nat)
    (row : gmap string field) :
  duplicate_ids (row_messages py_float seen_ids row_num row)
  = if decide (id_of row ∈ seen_ids) then [(row_num, id_of row)] else [].
Proof.
  unfold row_messages, check_id, check_stance, check_type, check_certainty,
    check_archived_date, check_link.
  fold (id_of row). rewrite !duplicate_ids_app.
  repeat case_match; reflexivity.
Qed.

Lemma duplicate_ids_loop (rows : list (gmap string field)) (pre : list field)
    (seen_ids : gset field) (row_num : nat) :
  seen_ids = list_to_set pre -> row_num = length pre + 1 ->
  duplicate_ids (loop_messages py_float seen_ids row_num rows)
  = omap (fun '(i, entry_id) =>
            if decide (entry_id ∈ take i (pre ++ (id_of <$> rows)))
            then Some (i + 2, entry_id) else None)
         (imap (fun i entry_id => (length pre + i, entry_id)) (id_of <$> rows)).
Proof.
  revert pre seen_ids row_num.
  induction rows as [|row rows IH]; intros pre seen_ids row_num Hseen Hnum;
    [reflexivity|].
  cbn [loop_messages]. rewrite duplicate_ids_app, duplicate_ids_row.
  rewrite (IH (pre ++ [id_of row])).
  2: { subst seen_ids. rewrite list_to_set_app_L. cbn. set_solver. }
  2: { rewrite length_app. cbn. lia. }
  rewrite fmap_cons, imap_cons. cbn [omap list_omap].
  rewrite Nat.add_0_r, take_app_length.
  rewrite <- app_assoc. cbn [app].
  rewrite (imap_ext (fun i entry_id => (length (pre ++ [id_of row]) + i, entry_id))
             ((fun i entry_id => (length pre + i, entry_id)) ∘ S))
    by (intros; cbn; rewrite length_app; cbn; f_equal; lia).
  replace (length pre + 2) with (S row_num) by lia.
  destruct (decide (id_of row ∈ seen_ids)) as [H1|H1],
           (decide (id_of row ∈ pre)) as [H2|H2]; try reflexivity;
    exfalso; subst seen_ids; rewrite elem_of_list_to_set in H1; contradiction.
Qed.

Lemma check_id_kind seen_ids row_num row m :
  m ∈ check_id seen_ids row_num row -> kind_of m = Duplicate.
Proof.
  unfold check_id. case_decide; [|by intros ?%elem_of_nil].
  by intros ->%list_elem_of_singleton.
Qed.

Lemma check_stance_kind row_num row m :
  m ∈ check_stance row_num row -> kind_of m = Stance.
Proof.
  unfold check_stance. repeat case_match; try (by intros ?%elem_of_nil).
  by intros ->%list_elem_of_singleton.
Qed.

Lemma check_type_kind row_num row m :
  m ∈ check_type row_num row -> kind_of m = EntryType.
Proof.
  unfold check_type. repeat case_match; try (by intros ?%elem_of_nil).
  by intros ->%list_elem_of_singleton.
Qed.

Lemma check_certainty_kind row_num row m :
  m ∈ check_certainty py_float row_num row -> kind_of m = Certainty.
Proof.
  unfold check_certainty. repeat case_match; try (by intros ?%elem_of_nil);
    by intros ->%list_elem_of_singleton.
Qed.

Lemma check_archived_date_kind row_num row m :
  m ∈ check_archived_date row_num row -> kind_of m = ArchivedDate.
Proof.
  unfold check_archived_date. repeat case_match; try (by intros ?%elem_of_nil).
  by intros ->%list_elem_of_singleton.
Qed.

Lemma check_link_kind row_num row m :
  m ∈ check_link row_num row -> kind_of m = Link.
Proof.
  unfold check_link. repeat case_match;
    rewrite ?elem_of_app, ?elem_of_cons, ?elem_of_nil; intuition (by subst).
Qed.

(** A message of a row comes from the check of its kind. *)
Lemma row_messages_of_kind seen_ids row_num row m :
  m ∈ row_messages py_float seen_ids row_num row
  <-> match kind_of m with
      | Header => False
      | Duplicate => m ∈ check_id seen_ids row_num row
      | Stance => m ∈ check_stance row_num row
      | EntryType => m ∈ check_type row_num row
      | Certainty => m ∈ check_certainty py_float row_num row
      | ArchivedDate => m ∈ check_archived_date row_num row
      | Link => m ∈ check_link row_num row
      end.
Proof.
  unfold row_messages. rewrite !elem_of_app.
  pose proof (check_id_kind seen_ids row_num row m).
  pose proof (check_stance_kind row_num row m).
  pose proof (check_type_kind row_num row m).
  pose proof (check_certainty_kind row_num row m).
  pose proof (check_archived_date_kind row_num row m).
  pose proof (check_link_kind row_num row m).
  destruct (kind_of m); intuition discriminate.
Qed.

Lemma row_messages_duplicate (seen_ids : gset field) (row_num n : nat)
    (row : gmap string field) (entry_id : field) :
  DuplicateID n entry_id ∈ row_messages py_float seen_ids row_num row
  <-> n = row_num /\ entry_id = id_of row /\ entry_id ∈ seen_ids.
Proof.
  rewrite row_messages_of_kind. cbn [kind_of].
  unfold check_id. fold (id_of row). case_decide.
  - rewrite list_elem_of_singleton. split.
    + intros [= -> ->]. auto.
    + intros (-> & -> & _). reflexivity.
  - rewrite elem_of_nil. split; [done|]. intros (_ & -> & ?). contradiction.
Qed.

End Checks.


(** ** The date pattern and the checks of single fields *)

Section IsoDate.

Lemma digits_spec (n : nat) (s rest : string) :
  Str.digits n s = Some rest
  <-> exists p, s = p +:+ rest /\ String.length p = n /\ all_digits p = true.
Proof.
  revert s. induction n as [|n IH]; intros s; cbn [Str.digits].
  - split.
    + intros [= ->]. by exists "".
    + intros (p & -> & Hlen & _). destruct p; [done|discriminate].
  - destruct s as [|c s].
    + split; [done|]. intros ([|c p] & Hs & Hlen & _); discriminate.
    + destruct (Str.is_digit c) eqn:Hc.
      * rewrite IH. split.
        -- intros (p & -> & Hlen & Hp). exists (String c p).
           cbn. rewrite Hc, Hp, Hlen. done.
        -- intros ([|c' p] & Hs & Hlen & Hp); [discriminate|].
           cbn in Hs, Hlen, Hp. injection Hs as -> ->.
           apply andb_true_iff in Hp as [_ Hp]. exists p. auto.
      * split; [done|]. intros ([|c' p] & Hs & Hlen & Hp); [discriminate|].
        cbn in Hs, Hp. injection Hs as -> ->. rewrite Hc in Hp. discriminate.
Qed.

Lemma hyphen_spec (s rest : string) :
  Str.hyphen s = Some rest <-> s = "-" +:+ rest.
Proof.
  unfold Str.hyphen. destruct s as [|c s]; [done|].
  destruct (Ascii.eqb_spec c "-") as [->|Hne]; cbn.
  - split; intros [= ->]; reflexivity.
  - split; [done|]. intros [= -> _]. done.
Qed.

Lemma then_spec (p q : string -> option string) (s rest : string) :
  Str.then_ p q s = Some rest
  <-> exists mid, p s = Some mid /\ q mid = Some rest.
Proof.
  unfold Str.then_. destruct (p s) as [mid|].
  - split; [eauto|]. by intros (? & [= <-] & ?).
  - split; [done|]. by intros (? & ? & _).
Qed.

(** The pattern of the validator matches exactly the texts that begin
    with a date. *)
Lemma match_iso_date_spec (s : string) :
  Str.match_iso_date s = true <-> begins_with_iso_date s.
Proof.
  unfold Str.match_iso_date, begins_with_iso_date. split.
  - destruct (Str.then_ _ _ s) as [rest|] eqn:H; [intros _|done].
    apply then_spec in H as (s1 & (y & -> & ? & ?)%digits_spec & H1).
    apply then_spec in H1 as (s2 & ->%hyphen_spec & H2).
    apply then_spec in H2 as (s3 & (m & -> & ? & ?)%digits_spec & H3).
    apply then_spec in H3 as (s4 & ->%hyphen_spec & H4).
    apply digits_spec in H4 as (d & -> & ? & ?).
    exists y, m, d, rest. auto 10.
  - intros (y & m & d & rest & -> & ? & ? & ? & ? & ? & ?).
    assert (Str.then_ (Str.digits 4)
              (Str.then_ Str.hyphen
                 (Str.then_ (Str.digits 2) (Str.then_ Str.hyphen (Str.digits 2))))
              (y +:+ "-" +:+ m +:+ "-" +:+ d +:+ rest) = Some rest) as ->; [|done].
    apply then_spec. eexists. split; [apply digits_spec; eauto|].
    apply then_spec. eexists. split; [by apply hyphen_spec|].
    apply then_spec. eexists. split; [apply digits_spec; eauto|].
    apply then_spec. eexists. split; [by apply hyphen_spec|].
    apply digits_spec; eauto.
Qed.

Lemma truthy_Some (s : string) : truthy (Some s) = true <-> s <> "".
Proof.
  cbn. destruct (String.eqb_spec s ""); cbn; split; congruence.
Qed.

Lemma truthy_Some_false (s : string) : truthy (Some s) = false <-> s = "".
Proof.
  cbn. destruct (String.eqb_spec s ""); cbn; split; congruence.
Qed.

Lemma check_archived_date_invalid (row_num n : nat) (row : gmap string field)
    (a : string) :
  InvalidArchivedDate n a ∈ check_archived_date row_num row
  <-> n = row_num /\ get row "archived_date" (Some "") = Some a
      /\ a <> "" /\ a <> "ACTIVE" /\ ~ begins_with_iso_date a.
Proof.
  unfold check_archived_date. rewrite <- match_iso_date_spec.
  destruct (get row "archived_date" (Some "")) as [archived|];
    [|rewrite elem_of_nil; naive_solver].
  destruct (truthy (Some archived)) eqn:Ht;
    [apply truthy_Some in Ht|apply truthy_Some_false in Ht; subst;
      rewrite elem_of_nil; cbn; naive_solver].
  destruct (String.eqb_spec archived "ACTIVE") as [->|Hne]; cbn [andb negb].
  - rewrite elem_of_nil. naive_solver.
  - destruct (Str.match_iso_date archived) eqn:Hm; cbn [negb];
      rewrite ?list_elem_of_singleton, ?elem_of_nil.
    + split; [done|]. intros (_ & [= <-] & _ & _ & H). congruence.
    + split.
      * intros [= -> ->]. rewrite Hm. auto.
      * intros (-> & [= <-] & _). reflexivity.
Qed.

End IsoDate.

Section FieldChecks.

Variable py_float : string -> option float.

Lemma check_certainty_invalid (row_num n : nat) (row : gmap string field)
    (s : string) :
  InvalidCertainty n s ∈ check_certainty py_float row_num row
  <-> n = row_num /\ get row "certainty" (Some "") = Some s
      /\ s <> "" /\ py_float s = None.
Proof.
  unfold check_certainty.
  destruct (get row "certainty" (Some "")) as [certainty|];
    [|rewrite elem_of_nil; naive_solver].
  destruct (truthy (Some certainty)) eqn:Ht;
    [apply truthy_Some in Ht|apply truthy_Some_false in Ht; subst;
      rewrite elem_of_nil; naive_solver].
  destruct (py_float certainty) as [c|] eqn:Hc.
  - destruct (negb (in_unit_interval c));
      rewrite ?list_elem_of_singleton, ?elem_of_nil; naive_solver.
  - rewrite list_elem_of_singleton. naive_solver.
Qed.

Lemma check_certainty_out_of_range (row_num n : nat) (row : gmap string field)
    (c : float) :
  CertaintyOutOfRange n c ∈ check_certainty py_float row_num row
  <-> n = row_num
      /\ exists s, get row "certainty" (Some "") = Some s
           /\ s <> "" /\ py_float s = Some c /\ in_unit_interval c = false.
Proof.
  unfold check_certainty.
  destruct (get row "certainty" (Some "")) as [certainty|];
    [|rewrite elem_of_nil; naive_solver].
  destruct (truthy (Some certainty)) eqn:Ht;
    [apply truthy_Some in Ht|apply truthy_Some_false in Ht; subst;
      rewrite elem_of_nil; naive_solver].
  destruct (py_float certainty) as [c'|] eqn:Hc.
  - destruct (in_unit_interval c') eqn:Hr; cbn [negb];
      rewrite ?list_elem_of_singleton, ?elem_of_nil.
    + split; [done|]. intros (-> & s & [= <-] & _ & ? & ?). congruence.
    + split.
      * intros [= -> ->]. split; [done|]. exists certainty. auto.
      * intros (-> & s & [= <-] & _ & ? & ?). congruence.
  - rewrite list_elem_of_singleton. naive_solver.
Qed.

End FieldChecks.

(** ** Files that pass *)

Section ValidFile.

Variable py_float : string -> option float.

Lemma no_certainty_message (errors : list message) (n : nat) :
  (forall s, InvalidCertainty n s ∉ errors) ->
  (forall c, CertaintyOutOfRange n c ∉ errors) ->
  forall m, m ∈ errors -> row_of m = Some n -> kind_of m <> Certainty.
Proof.
  intros Hinv Hout m Hm Hrow Hkind.
  destruct m; try discriminate; injection Hrow as ->.
  - by apply (Hout c).
  - by apply (Hinv certainty).
Qed.

Lemma row_messages_ok (seen_ids : gset field) (row_num : nat)
    (row : gmap string field) :
  id_of row ∉ seen_ids -> row_ok py_float row ->
  row_messages py_float seen_ids row_num row = [].
Proof.
  intros Hid (Hstance & Htype & Hcert & Harch & Hlink).
  unfold row_messages.
  assert (check_id seen_ids row_num row = []) as ->.
  { unfold check_id. fold (id_of row). by case_decide. }
  assert (check_stance row_num row = []) as ->.
  { unfold check_stance, stance_ok in *.
    destruct (get row "stance" (Some "")) as [s|]; [|done].
    destruct Hstance as [->|Hs]; [done|].
    rewrite bool_decide_eq_false_2 by auto. by rewrite andb_false_r. }
  assert (check_type row_num row = []) as ->.
  { unfold check_type, type_ok in *.
    destruct (get row "type" (Some "")) as [s|]; [|done].
    destruct Htype as [->|Hs]; [done|].
    rewrite bool_decide_eq_false_2 by auto. by rewrite andb_false_r. }
  assert (check_certainty py_float row_num row = []) as ->.
  { unfold check_certainty, certainty_ok in *.
    destruct (get row "certainty" (Some "")) as [s|]; [|done].
    destruct Hcert as [->|(c & -> & ->)]; [done|]. cbn [negb].
    by destruct (truthy (Some s)). }
  assert (check_archived_date row_num row = []) as ->.
  { unfold check_archived_date, archived_date_ok in *.
    destruct (get row "archived_date" (Some "")) as [a|]; [|done].
    destruct Harch as [->|[->|Hd]]; [done|done|].
    apply match_iso_date_spec in Hd. rewrite Hd. cbn [negb].
    by destruct (truthy (Some a) && negb (String.eqb a "ACTIVE")). }
  unfold check_link, link_ok in *. case_bool_decide as Hl; [|done].
  destruct (Hlink Hl) as [-> ->]. done.
Qed.

Lemma loop_messages_ok (rows : list (gmap string field))
    (seen_ids : gset field) (row_num : nat) :
  NoDup (id_of <$> rows) ->
  (forall row, row ∈ rows -> id_of row ∉ seen_ids) ->
  (forall row, row ∈ rows -> row_ok py_float row) ->
  loop_messages py_float seen_ids row_num rows = [].
Proof.
  revert seen_ids row_num.
  induction rows as [|row rows IH]; intros seen_ids row_num Hnd Hseen Hok;
    [reflexivity|].
  rewrite fmap_cons in Hnd. apply NoDup_cons in Hnd as [Hrow Hnd].
  cbn [loop_messages].
  rewrite row_messages_ok by (try apply Hseen; try apply Hok; left).
  rewrite IH; [done|done|..].
  - intros r Hr. apply not_elem_of_union. split; [apply Hseen; by right|].
    rewrite elem_of_singleton. intros Heq. apply Hrow. rewrite <- Heq.
    by apply list_elem_of_fmap_2.
  - intros r Hr. apply Hok. by right.
Qed.

End ValidFile.


(** ** The other checks of single fields *)

Section MoreChecks.





End MoreChecks.


(** ** The order of the report *)

Section Report.

Variable py_float : string -> option float.


Lemma sorted_nil_or_singleton (m : message) (b : bool) :
  StronglySorted (fun x y => position x < position y) (if b then [m] else []).
Proof. destruct b; repeat constructor. Qed.




















End Report.


(** ** Counting duplicates *)

Section Counting.

Variable py_float : string -> option float.




End Counting.


(** ** Binary64 numbers *)

Section Floats.

Lemma is_nan_Prim2SF (x : float) :
  PrimFloat.is_nan x = false -> Prim2SF x <> S754_nan.
Proof.
  intros Hx. unfold Prim2SF. rewrite Hx.
  destruct (PrimFloat.is_zero x); [done|].
  destruct (PrimFloat.is_infinity x); [done|].
  destruct (Z.frexp x) as [r e].
  destruct (shr_fexp _ _ _ _ _) as [shr e'].
  by destruct (shr_m shr).
Qed.


Lemma SFltb_rank (f1 f2 : spec_float) :
  f1 <> S754_nan -> f2 <> S754_nan ->
  SFltb f1 f2 = true <-> lex_lt (rank f1) (rank f2).
Proof.
  intros H1 H2. unfold SFltb, SFcompare, lex_lt.
  destruct f1 as [[]|[]| |[] m1 e1], f2 as [[]|[]| |[] m2 e2];
    try done; cbn [rank fst snd];
    try (split; [intros; lia|intros; try reflexivity; lia]);
    try (split; [discriminate|intros; lia]).
  - change (Pos.compare_cont Eq m1 m2) with (Pos.compare m1 m2).
    destruct (Z.compare_spec e1 e2), (Pos.compare_spec m1 m2); cbn;
      split; try discriminate; try lia; reflexivity.
  - change (Pos.compare_cont Eq m1 m2) with (Pos.compare m1 m2).
    destruct (Z.compare_spec e1 e2), (Pos.compare_spec m1 m2); cbn;
      split; try discriminate; try lia; reflexivity.
Qed.

Lemma SFleb_rank (f1 f2 : spec_float) :
  f1 <> S754_nan -> f2 <> S754_nan ->
  SFleb f1 f2 = true <-> ~ lex_lt (rank f2) (rank f1).
Proof.
  intros H1 H2. unfold SFleb, SFcompare, lex_lt.
  destruct f1 as [[]|[]| |[] m1 e1], f2 as [[]|[]| |[] m2 e2];
    try done; cbn [rank fst snd];
    try (split; [intros; lia|intros; try reflexivity; lia]);
    try (split; [discriminate|intros; lia]).
  - change (Pos.compare_cont Eq m1 m2) with (Pos.compare m1 m2).
    destruct (Z.compare_spec e1 e2), (Pos.compare_spec m1 m2); cbn;
      split; try discriminate; try lia; reflexivity.
  - change (Pos.compare_cont Eq m1 m2) with (Pos.compare m1 m2).
    destruct (Z.compare_spec e1 e2), (Pos.compare_spec m1 m2); cbn;
      split; try discriminate; try lia; reflexivity.
Qed.

(** On floats that are no NaN, [<] is the strict part of a total order
    of which [<=] is the rest. *)
Lemma ltb_false_leb (x y : float) :
  PrimFloat.is_nan x = false -> PrimFloat.is_nan y = false ->
  (x <? y)%float = false -> (y <=? x)%float = true.
Proof.
  intros Hx%is_nan_Prim2SF Hy%is_nan_Prim2SF Hlt.
  rewrite leb_spec. apply SFleb_rank; [done|done|].
  rewrite ltb_spec in Hlt. intros H%SFltb_rank; [congruence|done|done].
Qed.

Lemma leb_ltb_false (x y : float) :
  PrimFloat.is_nan x = false -> PrimFloat.is_nan y = false ->
  (y <=? x)%float = true -> (x <? y)%float = false.
Proof.
  intros Hx%is_nan_Prim2SF Hy%is_nan_Prim2SF Hle.
  rewrite leb_spec in Hle. apply SFleb_rank in Hle; [|done|done].
  rewrite ltb_spec. destruct (SFltb _ _) eqn:H; [|done].
  apply SFltb_rank in H; done.
Qed.

Lemma leb_trans (x y z : float) :
  PrimFloat.is_nan x = false -> PrimFloat.is_nan y = false ->
  PrimFloat.is_nan z = false ->
  (x <=? y)%float = true -> (y <=? z)%float = true -> (x <=? z)%float = true.
Proof.
  intros Hx%is_nan_Prim2SF Hy%is_nan_Prim2SF Hz%is_nan_Prim2SF.
  rewrite !leb_spec, !SFleb_rank by done. unfold lex_lt. lia.
Qed.

Lemma ltb_leb_trans (x y z : float) :
  PrimFloat.is_nan x = false -> PrimFloat.is_nan y = false ->
  PrimFloat.is_nan z = false ->
  (x <? y)%float = true -> (y <=? z)%float = true -> (x <? z)%float = true.
Proof.
  intros Hx%is_nan_Prim2SF Hy%is_nan_Prim2SF Hz%is_nan_Prim2SF.
  rewrite !leb_spec, !ltb_spec, !SFleb_rank, !SFltb_rank by done.
  unfold lex_lt. lia.
Qed.

Lemma ltb_leb (x y : float) :
  PrimFloat.is_nan x = false -> PrimFloat.is_nan y = false ->
  (x <? y)%float = true -> (x <=? y)%float = true.
Proof.
  intros Hx%is_nan_Prim2SF Hy%is_nan_Prim2SF.
  rewrite !leb_spec, !ltb_spec, !SFleb_rank, !SFltb_rank by done.
  unfold lex_lt. lia.
Qed.

End Floats.

(** ** Zero vectors *)

Section ZeroVectors.

Lemma is_zero_Prim2SF (x : float) :
  PrimFloat.is_zero x = true -> exists s, Prim2SF x = S754_zero s.
Proof.
  unfold PrimFloat.is_zero. rewrite FloatAxioms.eqb_spec.
  change (Prim2SF zero) with (S754_zero false).
  destruct (Prim2SF x) as [s|[]| |[] m e]; try discriminate. eauto.
Qed.

Lemma zero_or_nan_zero (x : float) (s : bool) :
  Prim2SF x = S754_zero s -> zero_or_nan x.
Proof. unfold zero_or_nan. by intros ->. Qed.

Lemma zero_or_nan_mul_l (x y : float) :
  zero_or_nan x -> zero_or_nan (x * y).
Proof.
  unfold zero_or_nan. rewrite mul_spec.
  destruct (Prim2SF x), (Prim2SF y); done.
Qed.

Lemma zero_or_nan_mul_r (x y : float) :
  zero_or_nan y -> zero_or_nan (x * y).
Proof.
  unfold zero_or_nan. rewrite mul_spec.
  destruct (Prim2SF x), (Prim2SF y); done.
Qed.

Lemma zero_or_nan_add (x y : float) :
  zero_or_nan x -> zero_or_nan y -> zero_or_nan (x + y).
Proof.
  unfold zero_or_nan. rewrite add_spec.
  destruct (Prim2SF x) as [[]| | |], (Prim2SF y) as [[]| | |]; done.
Qed.

Lemma zero_or_nan_sqrt (x : float) :
  zero_or_nan x -> zero_or_nan (PrimFloat.sqrt x).
Proof.
  unfold zero_or_nan. rewrite sqrt_spec. by destruct (Prim2SF x).
Qed.

(** A zero or a NaN divided by a zero or a NaN is a NaN. *)
Lemma zero_or_nan_div (x y : float) :
  zero_or_nan x -> zero_or_nan y -> (x / y)%float = nan.
Proof.
  unfold zero_or_nan. intros Hx Hy. apply Prim2SF_inj. rewrite div_spec.
  change (Prim2SF nan) with S754_nan.
  destruct (Prim2SF x), (Prim2SF y); done.
Qed.

Lemma zero_or_nan_foldl (l : list (float * float)) (acc : float) :
  zero_or_nan acc ->
  Forall (fun xy => zero_or_nan xy.1 \/ zero_or_nan xy.2) l ->
  zero_or_nan (foldl (fun acc xy => (acc + xy.1 * xy.2)%float) acc l).
Proof.
  revert acc. induction l as [|xy l IH]; intros acc Hacc Hl; [done|].
  apply Forall_cons in Hl as [Hxy Hl]. cbn [foldl]. apply IH; [|done].
  apply zero_or_nan_add; [done|].
  destruct Hxy; [by apply zero_or_nan_mul_l|by apply zero_or_nan_mul_r].
Qed.

Lemma zero_vector_Forall (a : list float) :
  zero_vector a = true -> Forall zero_or_nan a.
Proof.
  unfold zero_vector. rewrite forallb_forall, Forall_forall.
  intros H x Hx%list_elem_of_In. destruct (is_zero_Prim2SF x (H x Hx)) as [s Hs].
  by eapply zero_or_nan_zero.
Qed.

Lemma Forall_zip_l {A B} (P : A -> Prop) (Q : A * B -> Prop)
    (l : list A) (k : list B) :
  (forall x y, P x -> Q (x, y)) -> Forall P l -> Forall Q (zip l k).
Proof.
  intros HPQ Hl. revert k. induction Hl as [|x l Hx Hl IH]; intros [|y k];
    cbn; constructor; auto.
Qed.

Lemma Forall_zip_r {A B} (P : B -> Prop) (Q : A * B -> Prop)
    (l : list A) (k : list B) :
  (forall x y, P y -> Q (x, y)) -> Forall P k -> Forall Q (zip l k).
Proof.
  intros HPQ Hk. revert l. induction Hk as [|y k Hy Hk IH]; intros [|x l];
    cbn; constructor; auto.
Qed.

Lemma zero_or_nan_0 : zero_or_nan 0.
Proof. exact I. Qed.

Lemma dot_zero_l (a b : list float) :
  zero_vector a = true -> zero_or_nan (dot a b).
Proof.
  intros Ha%zero_vector_Forall. apply zero_or_nan_foldl; [exact zero_or_nan_0|].
  apply Forall_zip_l with (P := zero_or_nan); [cbn; auto|done].
Qed.

Lemma dot_zero_r (a b : list float) :
  zero_vector b = true -> zero_or_nan (dot a b).
Proof.
  intros Hb%zero_vector_Forall. apply zero_or_nan_foldl; [exact zero_or_nan_0|].
  apply Forall_zip_r with (P := zero_or_nan); [cbn; auto|done].
Qed.

Lemma norm_zero (a : list float) :
  zero_vector a = true -> zero_or_nan (norm a).
Proof. intros Ha. by apply zero_or_nan_sqrt, dot_zero_l. Qed.

Lemma cosine_zero_l (a b : list float) :
  zero_vector a = true -> cosine a b = nan.
Proof.
  intros Ha. unfold cosine. apply zero_or_nan_div; [by apply dot_zero_l|].
  by apply zero_or_nan_mul_l, norm_zero.
Qed.

Lemma cosine_zero_r (a b : list float) :
  zero_vector b = true -> cosine a b = nan.
Proof.
  intros Hb. unfold cosine. apply zero_or_nan_div; [by apply dot_zero_r|].
  by apply zero_or_nan_mul_r, norm_zero.
Qed.

End ZeroVectors.


(** ** The extension of a path, and dictionaries *)

Section Extension.

Lemma split_extension_tsv (base : string) :
  split_extension (base +:+ ".tsv") = (base, ".tsv").
Proof.
  induction base as [|c base IH]; [reflexivity|].
  rewrite append_cons. cbn [split_extension]. rewrite IH. reflexivity.
Qed.

Lemma sidecar_by_extension_tsv (base : string) :
  sidecar_by_extension (base +:+ ".tsv") = base +:+ "_semantics.tsv".
Proof. unfold sidecar_by_extension. by rewrite split_extension_tsv. Qed.

End Extension.

Section Dicts.

Context {V : Type}.
Implicit Types (d : list (field * V)) (k : field) (v : V).



Lemma dict_keys_set d k v :
  forall k', k' ∈ (Dict.set k v d).*1 <-> k' = k \/ k' ∈ d.*1.
Proof.
  intros k'. induction d as [|[k0 v0] d IH]; cbn.
  - rewrite list_elem_of_singleton, elem_of_nil. tauto.
  - destruct (decide (k = k0)) as [->|Hne]; cbn; rewrite !elem_of_cons.
    + tauto.
    + rewrite IH. tauto.
Qed.

Lemma dict_set_NoDup d k v : NoDup d.*1 -> NoDup (Dict.set k v d).*1.
Proof.
  induction d as [|[k0 v0] d IH]; cbn.
  - intros _. apply NoDup_singleton.
  - rewrite NoDup_cons. intros [Hk0 Hd].
    destruct (decide (k = k0)) as [->|Hne]; cbn; rewrite NoDup_cons.
    + done.
    + split; [|by apply IH]. rewrite dict_keys_set. naive_solver.
Qed.

Lemma dict_elem_of_set d k v k' v' :
  (k', v') ∈ Dict.set k v d -> (k', v') = (k, v) \/ (k', v') ∈ d.
Proof.
  induction d as [|[k0 v0] d IH]; cbn.
  - rewrite list_elem_of_singleton. tauto.
  - destruct (decide (k = k0)) as [->|Hne]; rewrite !elem_of_cons;
      naive_solver.
Qed.

Lemma dict_lookup_elem_of d k v : Dict.lookup k d = Some v -> (k, v) ∈ d.
Proof.
  induction d as [|[k0 v0] d IH]; cbn; [done|].
  destruct (decide (k = k0)) as [->|Hne].
  - intros [= ->]. by left.
  - intros H. right. by apply IH.
Qed.

(** In a dictionary, where no key occurs twice, a lookup finds the one
    item of its key. *)
Lemma dict_elem_of_lookup d k v :
  NoDup d.*1 -> (k, v) ∈ d -> Dict.lookup k d = Some v.
Proof.
  induction d as [|[k0 v0] d IH]; cbn; [by intros _ ?%elem_of_nil|].
  rewrite NoDup_cons, elem_of_cons. intros [Hk0 Hd] [[= -> ->]|Hin].
  - by rewrite decide_True.
  - rewrite decide_False; [by apply IH|].
    intros ->. apply Hk0. by apply (list_elem_of_fmap_2 fst _ (k0, v)).
Qed.

Lemma dict_lookup_None d k : Dict.lookup k d = None <-> k ∉ d.*1.
Proof.
  induction d as [|[k0 v0] d IH]; cbn.
  - split; [intros _; apply not_elem_of_nil|done].
  - rewrite not_elem_of_cons. destruct (decide (k = k0)) as [->|Hne].
    + split; [done|]. by intros [? _].
    + rewrite IH. tauto.
Qed.

Lemma dict_mem_keys d k : Dict.mem k d = true <-> k ∈ d.*1.
Proof.
  unfold Dict.mem. destruct (Dict.lookup k d) eqn:H.
  - split; [intros _|done]. apply dict_lookup_elem_of in H.
    by apply (list_elem_of_fmap_2 fst _ (k, v)).
  - split; [done|]. by apply dict_lookup_None in H.
Qed.

End Dicts.

(** ** The record store, the index and the sort *)

Section Store.

Lemma load_graph_rows_store_ok (rows : list (gmap string field))
    (entries entries' : list (field * gmap string field)) :
  store_ok entries ->
  load_graph_rows rows entries = Ok entries' -> store_ok entries'.
Proof.
  revert entries. induction rows as [|row rows IH]; intros entries Hok;
    cbn [load_graph_rows].
  - by intros [= <-].
  - destruct (is_active row) eqn:Hact; [|by apply IH].
    unfold getitem. destruct (row !! "id") as [k|] eqn:Hid; [|done].
    apply IH. destruct Hok as [Hnd Hall]. split.
    + by apply dict_set_NoDup.
    + intros k' row' [[= -> ->]|Hin]%dict_elem_of_set; [done|by apply Hall].
Qed.

Lemma load_graph_store_ok (fs : filesystem) (filepath : string)
    (entries : list (field * gmap string field)) :
  load_graph fs filepath = Ok entries -> store_ok entries.
Proof.
  unfold load_graph. destruct (fs !! filepath); [|done].
  apply load_graph_rows_store_ok. split; [constructor|].
  by intros ?? ?%elem_of_nil.
Qed.

Lemma is_active_get (row : gmap string field) :
  is_active row = true <-> get row "archived_date" None = Some "ACTIVE".
Proof. unfold is_active. apply bool_decide_eq_true. Qed.

End Store.

Section Index.

Variable json_loads : string -> option (list float).

Lemma load_embeddings_rows_NoDup (rows : list (gmap string field))
    (embeddings embeddings' : list (field * list float)) :
  NoDup embeddings.*1 ->
  load_embeddings_rows json_loads rows embeddings = Ok embeddings' ->
  NoDup embeddings'.*1.
Proof.
  revert embeddings. induction rows as [|row rows IH]; intros embeddings Hnd;
    cbn [load_embeddings_rows].
  - by intros [= <-].
  - destruct (get row "embedding" None) as [blob|]; [|by apply IH].
    destruct (is_active row && truthy (Some blob)); [|by apply IH].
    destruct (json_loads blob) as [emb|]; [|by apply IH].
    unfold getitem. destruct (row !! "id") as [k|]; [|done].
    apply IH. by apply dict_set_NoDup.
Qed.

Lemma load_embeddings_NoDup (fs : filesystem) (filepath : string)
    (embeddings : list (field * list float)) :
  load_embeddings json_loads fs filepath = Ok embeddings ->
  NoDup embeddings.*1.
Proof.
  unfold load_embeddings. destruct (fs !! filepath).
  - apply load_embeddings_rows_NoDup. constructor.
  - intros [= <-]. constructor.
Qed.

End Index.

Section Sorting.

Lemma insert_desc_Permutation (x : hit) (l : list hit) :
  Permutation (insert_desc x l) (x :: l).
Proof.
  induction l as [|y l IH]; cbn; [done|].
  destruct (score x <? score y)%float; [|done].
  rewrite IH. apply perm_swap.
Qed.

(** Sorting only reorders. *)
Lemma sort_desc_Permutation (l : list hit) : Permutation (sort_desc l) l.
Proof.
  induction l as [|x l IH]; cbn; [done|].
  rewrite insert_desc_Permutation. by constructor.
Qed.

Lemma insert_desc_descending (x : hit) (l : list hit) :
  PrimFloat.is_nan (score x) = false -> no_nan l ->
  descending l -> descending (insert_desc x l).
Proof.
  unfold descending, no_nan. intros Hx Hl Hs.
  induction l as [|y l IH]; cbn.
  - repeat constructor.
  - apply Forall_cons in Hl as [Hy Hl].
    apply StronglySorted_inv in Hs as [Hs Hall].
    destruct (score x <? score y)%float eqn:Hlt.
    + constructor; [by apply IH|].
      rewrite (insert_desc_Permutation x l). constructor; [|done].
      by apply ltb_leb.
    + constructor; [by constructor|].
      assert (Hyx : (score y <=? score x)%float = true)
        by (by apply ltb_false_leb).
      constructor; [done|].
      rewrite Forall_forall in Hall, Hl. apply Forall_forall.
      intros z Hz. apply leb_trans with (score y); auto.
Qed.

(** Sorting scores that are all numbers leaves no element with a score
    below a later one. *)
Lemma sort_desc_descending (l : list hit) :
  no_nan l -> descending (sort_desc l).
Proof.
  unfold no_nan. induction l as [|x l IH]; intros Hl; cbn.
  - constructor.
  - apply Forall_cons in Hl as [Hx Hl]. apply insert_desc_descending; auto.
    unfold no_nan. by rewrite sort_desc_Permutation.
Qed.

Lemma descending_lookup (l : list hit) (i j : nat) (x y : hit) :
  descending l -> i < j -> l !! i = Some x -> l !! j = Some y ->
  (score y <=? score x)%float = true.
Proof.
  unfold descending. intros Hs. revert i j.
  induction Hs as [|z l Hs IH Hall]; intros i j Hij Hi Hj; [done|].
  destruct i as [|i], j as [|j]; try lia; cbn in Hi, Hj.
  - injection Hi as ->. rewrite Forall_forall in Hall.
    apply Hall. by eapply list_elem_of_lookup_2.
  - apply (IH i j); [lia|done|done].
Qed.

Lemma descending_take (l : list hit) (n : nat) :
  descending l -> descending (take n l).
Proof.
  unfold descending. intros Hs. revert n.
  induction Hs as [|z l Hs IH Hall]; intros [|n]; cbn; try constructor; auto.
  rewrite Forall_forall in *. intros y Hy.
  apply Hall. apply elem_of_take in Hy as (i & Hy & _).
  by eapply list_elem_of_lookup_2.
Qed.

Lemma slice_to_nonneg {A} (k : Z) (l : list A) :
  (0 <= k)%Z -> slice_to k l = take (Z.to_nat k) l.
Proof. intros Hk. unfold slice_to. by rewrite (proj2 (Z.leb_le 0 k)). Qed.

Lemma slice_to_subseteq {A} (k : Z) (l : list A) (x : A) :
  x ∈ slice_to k l -> x ∈ l.
Proof.
  unfold slice_to. destruct (0 <=? k)%Z;
    intros (i & Hx & _)%elem_of_take; by eapply list_elem_of_lookup_2.
Qed.

End Sorting.

(** ** The loops of [search] *)

Section Loops.

Implicit Types (entries : list (field * gmap string field))
  (embeddings items : list (field * list float)).

Lemma cosine_similarity_Ok (a b : list float) (sim : float) :
  cosine_similarity a b = Ok sim -> sim = cosine a b.
Proof.
  unfold cosine_similarity. destruct (Nat.eqb _ _); [|done]. by intros [= <-].
Qed.

Lemma cosine_similarity_same_length (a b : list float) :
  length a = length b -> cosine_similarity a b = Ok (cosine a b).
Proof.
  intros Hlen. unfold cosine_similarity. by rewrite Hlen, Nat.eqb_refl.
Qed.

(** When the scoring loop returns, it has appended the scored ids. *)
Lemma score_all_Ok (query_emb : list float) entries items
    (scores result : list hit) :
  score_all query_emb entries items scores = Ok result ->
  result = scores ++ scored query_emb entries items.
Proof.
  revert scores. induction items as [|[entry_id emb] items IH]; intros scores;
    cbn [score_all scored omap list_omap].
  - intros [= <-]. by rewrite app_nil_r.
  - fold (scored query_emb entries items).
    destruct (Dict.lookup entry_id entries) as [entry|]; [|apply IH].
    destruct (cosine_similarity query_emb emb) as [sim|] eqn:Hsim; [|done].
    apply cosine_similarity_Ok in Hsim as ->.
    intros ->%IH. by rewrite <- app_assoc.
Qed.

(** The scoring loop returns when the vectors it meets have the length
    of the query vector. *)
Lemma score_all_same_length (query_emb : list float) entries items
    (scores : list hit) :
  Forall (fun item => Dict.mem item.1 entries = true ->
                      length query_emb = length item.2) items ->
  score_all query_emb entries items scores
  = Ok (scores ++ scored query_emb entries items).
Proof.
  intros Hlen. revert scores.
  induction Hlen as [|[entry_id emb] items Hitem Hlen IH]; intros scores;
    cbn [score_all scored omap list_omap].
  - by rewrite app_nil_r.
  - fold (scored query_emb entries items). unfold Dict.mem in Hitem.
    cbn [fst snd] in Hitem.
    destruct (Dict.lookup entry_id entries) as [entry|]; [|apply IH].
    rewrite cosine_similarity_same_length by auto.
    rewrite IH. by rewrite <- app_assoc.
Qed.

Lemma elem_of_scored (query_emb : list float) entries embeddings (h : hit) :
  h ∈ scored query_emb entries embeddings
  <-> exists emb, (h.1.1, emb) ∈ embeddings
        /\ Dict.lookup h.1.1 entries = Some h.2
        /\ h.1.2 = cosine query_emb emb.
Proof.
  unfold scored. rewrite list_elem_of_omap. split.
  - intros ([entry_id emb] & Hin & Hsome).
    destruct (Dict.lookup entry_id entries) as [entry|] eqn:Hl; [|done].
    injection Hsome as <-. cbn. eauto.
  - intros (emb & Hin & Hl & Hs). exists (h.1.1, emb). split; [done|].
    rewrite Hl. destruct h as [[entry_id sim] entry]. cbn in *. by subst.
Qed.

(** When the keyword loop returns, it has appended the matches. *)
Lemma keyword_scan_Ok (query : string) (items : list (field * gmap string field))
    (results result : list hit) :
  keyword_scan (Str.lower query) items results = Ok result ->
  result = results ++ keyword_matches query items.
Proof.
  revert results. induction items as [|[entry_id entry] items IH]; intros results;
    cbn [keyword_scan keyword_matches omap list_omap].
  - intros [= <-]. by rewrite app_nil_r.
  - fold (keyword_matches query items). unfold content_of.
    destruct (get entry "content" (Some "")) as [text|]; [|done].
    destruct (Str.contains _ _); [|apply IH].
    intros ->%IH. by rewrite <- app_assoc.
Qed.

(** The keyword loop returns when no content is [None]. *)
Lemma keyword_scan_with_content (query : string)
    (items : list (field * gmap string field)) (results : list hit) :
  Forall (fun item => content_of item.2 <> None) items ->
  keyword_scan (Str.lower query) items results
  = Ok (results ++ keyword_matches query items).
Proof.
  intros Hc. revert results.
  induction Hc as [|[entry_id entry] items Hitem Hc IH]; intros results;
    cbn [keyword_scan keyword_matches omap list_omap].
  - by rewrite app_nil_r.
  - fold (keyword_matches query items). unfold content_of in *.
    cbn [snd] in Hitem.
    destruct (get entry "content" (Some "")) as [text|]; [|done].
    destruct (Str.contains _ _); [|apply IH].
    rewrite IH. by rewrite <- app_assoc.
Qed.

Lemma elem_of_keyword_matches (query : string)
    (entries : list (field * gmap string field)) (h : hit) :
  h ∈ keyword_matches query entries
  <-> (h.1.1, h.2) ∈ entries /\ h.1.2 = 1%float
      /\ exists text, content_of h.2 = Some text
           /\ Str.contains (Str.lower query) (Str.lower text) = true.
Proof.
  unfold keyword_matches. rewrite list_elem_of_omap. split.
  - intros ([entry_id entry] & Hin & Hsome).
    destruct (content_of entry) as [text|] eqn:Hc; [|done].
    destruct (Str.contains _ _) eqn:Hm; [|done].
    injection Hsome as <-. cbn. eauto 6.
  - intros (Hin & Hs & text & Hc & Hm). exists (h.1.1, h.2). split; [done|].
    rewrite Hc, Hm. destruct h as [[entry_id sim] entry]. cbn in *. by subst.
Qed.

Lemma keyword_matches_sublist (query : string)
    (entries : list (field * gmap string field)) :
  sublist ((fun h : hit => (h.1.1, h.2)) <$> keyword_matches query entries)
    entries.
Proof.
  induction entries as [|[entry_id entry] entries IH];
    cbn [keyword_matches omap list_omap]; [constructor|].
  fold (keyword_matches query entries).
  destruct (content_of entry) as [text|]; [|by constructor].
  destruct (Str.contains _ _); cbn; by constructor.
Qed.

Lemma scored_ids_sublist (query_emb : list float) entries embeddings :
  sublist (scored query_emb entries embeddings).*1.*1 embeddings.*1.
Proof.
  induction embeddings as [|[entry_id emb] embeddings IH];
    cbn [scored omap list_omap]; [constructor|].
  fold (scored query_emb entries embeddings).
  destruct (Dict.lookup entry_id entries); cbn; by constructor.
Qed.

End Loops.

(** ** The last vector of an id *)

Section LastVector.

Variable json_loads : string -> option (list float).




End LastVector.


(** ** Declared columns, and the last write *)

Section Declared.






End Declared.

Section LastWrite.



End LastWrite.


(** ** What the loops raise *)

Section Exceptions.

Variable json_loads : string -> option (list float).








End Exceptions.


(** ** What the loops need to return *)

Section Returns.



End Returns.


(** ** Symmetry of the product, and equal scores *)

Section Symmetry.










End Symmetry.


(** ** The command of the validator *)

Section Commands.

Variable py_float : string -> option float.


End Commands.


(** ** The counts of [graph_stats] *)






Section StatsFacts.

Variable py_float : string -> option float.




End StatsFacts.

(** ** Facts about the sample files *)

Ltac by_computation := apply (bool_decide_unpack _); vm_compute; exact I.

Lemma singleton_file (filepath : string) (t : table) :
  ({[ filepath := t ]} : filesystem) !! filepath = Some t.
Proof. apply lookup_singleton_eq. Qed.

Lemma decimal_float_reads_the_literals : reads_the_literals decimal_float.
Proof. repeat split. Qed.

Lemma sample_valid_rows_ok (row : gmap string field) :
  row ∈ DictReader.rows sample_valid -> row_ok decimal_float row.
Proof.
  intros Hrow.
  assert (Hcases : row ∈
    [ DictReader.make_row REQUIRED_FIELDS
        (sample_record "ACTIVE" "a1" "item" "fact" "0.5" "" "" "Hello World");
      DictReader.make_row REQUIRED_FIELDS
        (sample_record "2024-01-15" "a2" "item" "" "" "" "" "retired");
      DictReader.make_row REQUIRED_FIELDS
        (sample_record "ACTIVE" "l1" "link" "link" "1.0" "a1" "a2" "") ])
    by exact Hrow.
  clear Hrow. rewrite !elem_of_cons, elem_of_nil in Hcases.
  unfold row_ok, stance_ok, type_ok, certainty_ok, archived_date_ok, link_ok.
  destruct Hcases as [->|[->|[->|[]]]].
  - repeat split.
    + vm_compute get. right. by_computation.
    + vm_compute get. right. by_computation.
    + vm_compute get. right. eexists. split; reflexivity.
    + vm_compute get. right. by left.
    + vm_compute get in H. discriminate.
    + vm_compute get in H. discriminate.
  - repeat split.
    + vm_compute get. by left.
    + vm_compute get. right. by_computation.
    + vm_compute get. by left.
    + vm_compute get. right. right. apply match_iso_date_spec. reflexivity.
    + vm_compute get in H. discriminate.
    + vm_compute get in H. discriminate.
  - repeat split.
    + vm_compute get. right. by_computation.
    + vm_compute get. right. by_computation.
    + vm_compute get. right. eexists. split; reflexivity.
    + vm_compute get. right. by left.
Qed.


Lemma sample_load_graph :
  load_graph sample_files_with_embeddings "graph.tsv" = Ok sample_entries.
Proof. reflexivity. Qed.

Lemma sample_load_graph_alone :
  load_graph sample_files "graph.tsv" = Ok sample_entries.
Proof. reflexivity. Qed.

Lemma sample_load_embeddings :
  load_embeddings sample_json_loads sample_files_with_embeddings
    (sem_path "graph.tsv") = Ok sample_embeddings.
Proof. reflexivity. Qed.

Lemma sample_load_embeddings_alone :
  load_embeddings sample_json_loads sample_files (sem_path "graph.tsv") = Ok [].
Proof. reflexivity. Qed.

Lemma sample_search :
  search sample_json_loads sample_embed sample_files_with_embeddings
    "graph.tsv" "hello" 10 = ([], Ok sample_hits).
Proof. reflexivity. Qed.


(** C1 as stated fails: on the zero vector the similarity is a NaN, which
    is neither 0.0 nor equal to itself. *)
Lemma cosine_similarity_no_sentinel :
  zero_vector [0; 0]%float = true
  /\ norm [0; 0]%float = 0%float
  /\ cosine_similarity [0; 0]%float [1; 0]%float = Ok nan
  /\ cosine_similarity [1; 0]%float [0; 0]%float = Ok nan
  /\ (nan =? 0)%float = false
  /\ (nan =? nan)%float = false.
Proof. repeat split. Qed.

(** C1, amended: [cosine_similarity] has no guard for a zero norm.  For
    two vectors of one length of which one has only zero components it
    raises nothing and returns the NaN that IEEE 754 gives for 0/0, which
    is not 0.0. *)
Theorem cosine_similarity_zero_vector (a b : list float) :
  length a = length b ->
  zero_vector a = true \/ zero_vector b = true ->
  cosine_similarity a b = Ok nan
  /\ PrimFloat.is_nan nan = true
  /\ (nan =? 0)%float = false.
Proof.
  intros Hlen Hzero. split; [|done].
  unfold cosine_similarity. rewrite Hlen, Nat.eqb_refl. f_equal.
  destruct Hzero; [by apply cosine_zero_l|by apply cosine_zero_r].
Qed.

Lemma cosine_similarity_zero_vector_witness :
  cosine_similarity [0; 0]%float [1; 0]%float = Ok nan
  /\ PrimFloat.is_nan nan = true
  /\ (nan =? 0)%float = false.
Proof.
  apply (cosine_similarity_zero_vector [0; 0]%float [1; 0]%float).
  - reflexivity.
  - left. reflexivity.
Defined.


(** C2 as stated fails: every occurrence of ".tsv" is replaced, and a path
    without ".tsv" is left as it is, so the derived path is not always
    the base name with "_semantics" before the trailing extension. *)
Lemma sem_path_not_by_extension :
  sem_path "data.tsv/graph.tsv" = "data_semantics.tsv/graph_semantics.tsv"
  /\ sidecar_by_extension "data.tsv/graph.tsv" = "data.tsv/graph_semantics.tsv"
  /\ sem_path "graph.txt" = "graph.txt"
  /\ sidecar_by_extension "graph.txt" = "graph_semantics.txt".
Proof. repeat split. Qed.

(** C2, amended: for a path that ends in ".tsv" and has no other
    occurrence of ".tsv", [search] derives the path of the file of
    embeddings by putting "_semantics" before the trailing extension
    ("graph.tsv" gives "graph_semantics.tsv"); a path in which ".tsv" does
    not occur is derived to itself. *)
Theorem sem_path_trailing_extension (base : string) :
  Str.contains ".tsv" base = false ->
  sem_path (base +:+ ".tsv") = base +:+ "_semantics.tsv"
  /\ sem_path (base +:+ ".tsv") = sidecar_by_extension (base +:+ ".tsv")
  /\ sem_path base = base.
Proof.
  intros Hbase. unfold sem_path.
  rewrite sidecar_by_extension_tsv, replace_trailing_tsv by done.
  repeat split. by apply replace_absent.
Qed.

Lemma sem_path_trailing_extension_witness :
  sem_path "graph.tsv" = "graph_semantics.tsv"
  /\ sem_path "graph.tsv" = sidecar_by_extension "graph.tsv"
  /\ sem_path "graph" = "graph".
Proof. apply (sem_path_trailing_extension "graph"). reflexivity. Defined.


(** C3 as stated fails.  With the stored vectors [0, 1], [0, 0] and [1, 0]
    and the query vector [1, 0], the similarities are 0.0, NaN and 1.0,
    and [search] returns them in this order: the orthogonal vector before
    the identical one, and not in descending order.  (Python's sort
    reverses the keys to 1.0, NaN, 0.0, finds no key below the one before
    it, takes the list for sorted and reverses it back; the sort of this
    file gives the same list.) *)
Lemma search_zero_vector_not_descending :
  exists hits : list hit,
    search zero_vector_json_loads sample_embed zero_vector_files
      "graph.tsv" "hello" 10 = ([], Ok hits)
    /\ (fun h : hit => (h.1.1, score h)) <$> hits
       = [ (Some "a1", 0%float); (Some "a2", nan); (Some "a3", 1%float) ]
    /\ (0 <? 1)%float = true.
Proof. eexists. split; [reflexivity|]. split; reflexivity. Qed.

(** C3, amended: when the index of embeddings is not empty, the vectors it
    meets have the length of the query vector, no similarity is a NaN (no
    scored vector has a zero norm) and [top_k] is not negative, [search]
    scores exactly the ids that are in both the index and the record
    store, each once, with the dot product of the query vector and the
    stored vector divided by the product of their Euclidean norms, and
    returns the first [top_k] of them in descending order of similarity;
    a result of similarity 1.0 then comes before any result of similarity
    0.0. *)
Theorem search_semantic_branch
    (json_loads : string -> option (list float)) (embed : string -> list float)
    (fs : filesystem) (graph_path query : string) (top_k : Z)
    (entries : list (field * gmap string field))
    (embeddings : list (field * list float)) :
  let query_emb := embed ("search_query: " +:+ query) in
  load_graph fs graph_path = Ok entries ->
  load_embeddings json_loads fs (sem_path graph_path) = Ok embeddings ->
  embeddings <> [] ->
  Forall (fun item => Dict.mem item.1 entries = true ->
                      length query_emb = length item.2) embeddings ->
  no_nan (scored query_emb entries embeddings) ->
  (0 <= top_k)%Z ->
  exists ranked : list hit,
    search json_loads embed fs graph_path query top_k
    = ([], Ok (take (Z.to_nat top_k) ranked))
    /\ Permutation ranked (scored query_emb entries embeddings)
    /\ descending ranked
    /\ NoDup ranked.*1.*1
    /\ (forall entry_id, entry_id ∈ ranked.*1.*1
          <-> entry_id ∈ embeddings.*1 /\ entry_id ∈ entries.*1)
    /\ (forall entry_id sim entry, (entry_id, sim, entry) ∈ ranked ->
          exists emb, Dict.lookup entry_id embeddings = Some emb
            /\ Dict.lookup entry_id entries = Some entry
            /\ sim = (dot query_emb emb / (norm query_emb * norm emb))%float)
    /\ (forall i j x y,
          take (Z.to_nat top_k) ranked !! i = Some x ->
          take (Z.to_nat top_k) ranked !! j = Some y ->
          score x = 1%float -> score y = 0%float -> i < j).
Proof.
  intros query_emb Hentries Hembeddings Hne Hlen Hnan Htop.
  pose proof (load_embeddings_NoDup _ _ _ _ Hembeddings) as Hnd.
  set (all := scored query_emb entries embeddings) in *.
  exists (sort_desc all).
  assert (Hperm := sort_desc_Permutation all).
  assert (Hdesc := sort_desc_descending all Hnan).
  split; [|split; [done|split; [done|split; [|split; [|split]]]]].
  - unfold search. rewrite Hentries, Hembeddings.
    destruct embeddings as [|item embeddings]; [done|].
    fold query_emb. rewrite score_all_same_length by done.
    cbn [app]. fold all. by rewrite slice_to_nonneg.
  - rewrite Hperm. pose proof (scored_ids_sublist query_emb entries embeddings).
    eauto using sublist_NoDup.
  - intros entry_id. rewrite Hperm. split.
    + intros (ks & -> & (h & -> & Hin)%list_elem_of_fmap)%list_elem_of_fmap.
      apply elem_of_scored in Hin as (emb & Hin & Hl & _). split.
      * by apply (list_elem_of_fmap_2 fst _ (h.1.1, emb)).
      * apply dict_mem_keys. unfold Dict.mem. by rewrite Hl.
    + intros [(item & -> & Hitem)%list_elem_of_fmap Hk%dict_mem_keys].
      destruct item as [k emb]. unfold Dict.mem in Hk. cbn in Hk.
      destruct (Dict.lookup k entries) as [entry|] eqn:Hl; [|done].
      apply (list_elem_of_fmap_2' _ _ (k, cosine query_emb emb)); [|done].
      apply (list_elem_of_fmap_2' _ _ (k, cosine query_emb emb, entry)); [|done].
      apply elem_of_scored. exists emb. cbn. auto.
  - intros entry_id sim entry Hin. rewrite Hperm in Hin.
    apply elem_of_scored in Hin as (emb & Hin & Hl & Hs). cbn in *.
    exists emb. split; [by apply dict_elem_of_lookup|done].
  - intros i j x y Hi Hj Hx Hy.
    destruct (decide (i < j)) as [|Hij]; [done|exfalso].
    assert (Hle : (score x <=? score y)%float = true).
    { destruct (decide (j = i)) as [->|Hne'].
      - rewrite Hi in Hj. injection Hj as ->. rewrite Hx in Hy.
        by rewrite Hx, Hy.
      - apply (descending_lookup (take (Z.to_nat top_k) (sort_desc all)) j i y x);
          [by apply descending_take|lia|done|done]. }
    rewrite Hx, Hy in Hle. discriminate.
Qed.

Lemma search_semantic_branch_witness :
  exists ranked : list hit,
    search sample_json_loads sample_embed sample_files_with_embeddings
      "graph.tsv" "hello" 10 = ([], Ok (take 10 ranked))
    /\ Permutation ranked (scored [1; 0]%float sample_entries sample_embeddings)
    /\ descending ranked
    /\ (forall entry_id, entry_id ∈ ranked.*1.*1
          <-> entry_id ∈ sample_embeddings.*1 /\ entry_id ∈ sample_entries.*1).
Proof.
  destruct (search_semantic_branch sample_json_loads sample_embed
              sample_files_with_embeddings "graph.tsv" "hello" 10
              sample_entries sample_embeddings)
    as (ranked & Hsearch & Hperm & Hdesc & _ & Hids & _).
  - exact sample_load_graph.
  - exact sample_load_embeddings.
  - discriminate.
  - by_computation.
  - by_computation.
  - lia.
  - exists ranked. auto.
Defined.


(** C4: [search] prints the fallback warning, and so takes the keyword
    branch, exactly when the loaded index of embeddings is empty, which a
    missing file of embeddings makes it.  In that branch (no content
    being [None], [top_k] not negative) it returns the first [top_k] of
    the keyword matches: the active records whose lowercased content
    contains the lowercased query, each with the score 1.0, in the order
    of the record store. *)
Theorem search_fallback_branch
    (json_loads : string -> option (list float)) (embed : string -> list float)
    (fs : filesystem) (graph_path query : string) (top_k : Z)
    (entries : list (field * gmap string field))
    (embeddings : list (field * list float)) :
  load_graph fs graph_path = Ok entries ->
  load_embeddings json_loads fs (sem_path graph_path) = Ok embeddings ->
  ((search json_loads embed fs graph_path query top_k).1
   = [ "Warning: No embeddings found in " +:+ sem_path graph_path;
       "Falling back to keyword search..." ]
   <-> embeddings = [])
  /\ ((search json_loads embed fs graph_path query top_k).1 = []
      <-> embeddings <> [])
  /\ (fs !! sem_path graph_path = None -> embeddings = [])
  /\ (embeddings = [] ->
      Forall (fun item => content_of item.2 <> None) entries ->
      (0 <= top_k)%Z ->
      (search json_loads embed fs graph_path query top_k).2
      = Ok (take (Z.to_nat top_k) (keyword_matches query entries)))
  /\ (forall entry_id sim entry,
        (entry_id, sim, entry) ∈ keyword_matches query entries
        <-> (entry_id, entry) ∈ entries /\ sim = 1%float
            /\ exists text, content_of entry = Some text
                 /\ Str.contains (Str.lower query) (Str.lower text) = true)
  /\ sublist ((fun h : hit => (h.1.1, h.2)) <$> keyword_matches query entries)
       entries.
Proof.
  intros Hentries Hembeddings.
  split; [|split; [|split; [|split; [|split]]]].
  - unfold search. rewrite Hentries, Hembeddings.
    destruct embeddings; cbn [fst]; split; done.
  - unfold search. rewrite Hentries, Hembeddings.
    destruct embeddings; cbn [fst]; split; done.
  - intros Hnone. unfold load_embeddings in Hembeddings.
    rewrite Hnone in Hembeddings. by injection Hembeddings as <-.
  - intros -> Hcontent Htop. unfold search. rewrite Hentries, Hembeddings.
    cbn [snd]. rewrite keyword_scan_with_content by done.
    cbn [app]. by rewrite slice_to_nonneg.
  - intros entry_id sim entry.
    apply (elem_of_keyword_matches query entries (entry_id, sim, entry)).
  - apply keyword_matches_sublist.
Qed.

Lemma search_fallback_branch_witness :
  (search sample_json_loads sample_embed sample_files "graph.tsv" "hello" 10).2
  = Ok (take 10 (keyword_matches "hello" sample_entries)).
Proof.
  apply (search_fallback_branch sample_json_loads sample_embed sample_files
           "graph.tsv" "hello" 10 sample_entries []).
  - exact sample_load_graph_alone.
  - exact sample_load_embeddings_alone.
  - reflexivity.
  - by_computation.
  - lia.
Defined.


(** C5: whatever [search] returns, in either branch, every result is an
    entry of the record store under its id, with [archived_date] equal to
    "ACTIVE"; an id that is not in the record store, whether the index of
    embeddings has it or not, is in no result. *)
Theorem search_returns_active_entries
    (json_loads : string -> option (list float)) (embed : string -> list float)
    (fs : filesystem) (graph_path query : string) (top_k : Z)
    (out : list string) (hits : list hit) :
  search json_loads embed fs graph_path query top_k = (out, Ok hits) ->
  exists entries,
    load_graph fs graph_path = Ok entries
    /\ (forall entry_id sim entry, (entry_id, sim, entry) ∈ hits ->
          get entry "archived_date" None = Some "ACTIVE"
          /\ Dict.lookup entry_id entries = Some entry)
    /\ (forall entry_id, entry_id ∈ hits.*1.*1 -> entry_id ∈ entries.*1).
Proof.
  unfold search. intros Hsearch.
  destruct (load_graph fs graph_path) as [entries|] eqn:Hentries; [|done].
  pose proof (load_graph_store_ok _ _ _ Hentries) as [Hnd Hstore].
  exists entries. split; [done|].
  assert (Hhits : forall entry_id sim entry, (entry_id, sim, entry) ∈ hits ->
            get entry "archived_date" None = Some "ACTIVE"
            /\ Dict.lookup entry_id entries = Some entry).
  { destruct (load_embeddings _ _ _) as [embeddings|]; [|done].
    intros entry_id sim entry Hin.
    assert (Hl : Dict.lookup entry_id entries = Some entry).
    { destruct embeddings as [|item embeddings].
      - destruct (keyword_scan _ _ _) as [results|] eqn:Hscan; [|done].
        injection Hsearch as _ <-. apply slice_to_subseteq in Hin.
        apply keyword_scan_Ok in Hscan as ->. cbn [app] in Hin.
        apply elem_of_keyword_matches in Hin as (Hin & _).
        by apply dict_elem_of_lookup.
      - destruct (score_all _ _ _ _) as [scores|] eqn:Hscore; [|done].
        injection Hsearch as _ <-. apply slice_to_subseteq in Hin.
        rewrite sort_desc_Permutation in Hin.
        apply score_all_Ok in Hscore as ->. cbn [app] in Hin.
        by apply elem_of_scored in Hin as (emb & _ & Hl & _). }
    split; [|done]. apply dict_lookup_elem_of, Hstore in Hl as [Hact _].
    by apply is_active_get. }
  split; [exact Hhits|].
  intros entry_id (ks & -> & (h & -> & Hin)%list_elem_of_fmap)%list_elem_of_fmap.
  destruct h as [[k sim] entry]. apply Hhits in Hin as [_ Hl].
  apply dict_mem_keys. unfold Dict.mem. cbn. by rewrite Hl.
Qed.

Lemma search_returns_active_entries_witness :
  exists entries,
    load_graph sample_files_with_embeddings "graph.tsv" = Ok entries
    /\ (forall entry_id sim entry, (entry_id, sim, entry) ∈ sample_hits ->
          get entry "archived_date" None = Some "ACTIVE"
          /\ Dict.lookup entry_id entries = Some entry)
    /\ (forall entry_id, entry_id ∈ sample_hits.*1.*1 -> entry_id ∈ entries.*1).
Proof.
  exact (search_returns_active_entries sample_json_loads sample_embed
           sample_files_with_embeddings "graph.tsv" "hello" 10 [] sample_hits
           sample_search).
Defined.

(** C6: the duplicate-id messages of [validate_graph] are exactly the
    second and later occurrences of an id among the rows, archived rows
    and the empty id included, one message each and in row order, each
    with the row number that counts the header as row 1 (the row at index
    [i] is row [i + 2]); the row at index [i] is flagged exactly when its
    id occurs among the rows before it, so a first occurrence never is. *)
Theorem validate_graph_flags_later_occurrences
    (py_float : string -> option float) (fs : filesystem) (filepath : string)
    (t : table) (names : list string) :
  fs !! filepath = Some t ->
  DictReader.fieldnames t = Some names ->
  let errors := (validate_graph py_float fs filepath).2 in
  let ids := id_of <$> DictReader.rows t in
  duplicate_ids errors = later_occurrences ids
  /\ (forall i entry_id, ids !! i = Some entry_id ->
        DuplicateID (i + 2) entry_id ∈ errors <-> entry_id ∈ take i ids).
Proof.
  intros Hfs Hnames errors ids. split.
  - subst errors ids.
    rewrite (validate_graph_with_header py_float fs filepath t names Hfs Hnames).
    cbn [snd]. rewrite duplicate_ids_app, duplicate_ids_header. cbn [app].
    by apply (duplicate_ids_loop py_float (DictReader.rows t) []).
  - intros i entry_id Hi. subst errors ids.
    apply list_lookup_fmap_Some in Hi as (row & -> & Hrow).
    rewrite (validate_graph_messages_of_row py_float fs filepath t names i row
               (DuplicateID (i + 2) (id_of row)) Hfs Hnames Hrow eq_refl).
    rewrite row_messages_duplicate. unfold seen_before. rewrite fmap_take.
    split; [intros (_ & _ & H); set_solver|intros H; repeat split; set_solver].
Qed.

Lemma validate_graph_flags_later_occurrences_witness :
  duplicate_ids
    (validate_graph decimal_float {[ "graph.tsv" := sample_graph ]} "graph.tsv").2
  = [(4, Some "a1"); (7, Some "")].
Proof.
  destruct (validate_graph_flags_later_occurrences decimal_float
              {[ "graph.tsv" := sample_graph ]} "graph.tsv" sample_graph
              REQUIRED_FIELDS (singleton_file _ _) eq_refl) as [H _].
  rewrite H. vm_compute. reflexivity.
Defined.


(** C7: for the row at index [i] (row [i + 2]) with a non-empty certainty,
    [validate_graph] reports "invalid certainty" exactly when [float]
    rejects the text, and the distinct "out of range" exactly when the
    text parses to a number for which [0.0 <= c <= 1.0] is false; an empty
    or absent certainty gives neither.  Where [float] reads the literals of
    the specification as Python does, "0.0" and "1.0" give no message,
    "1.1" and "-0.1" give the out-of-range one and not the invalid one, and
    "abc" gives the invalid one and not the out-of-range one. *)
Theorem validate_graph_certainty
    (py_float : string -> option float) (fs : filesystem) (filepath : string)
    (t : table) (names : list string) (i : nat) (row : gmap string field) :
  fs !! filepath = Some t ->
  DictReader.fieldnames t = Some names ->
  DictReader.rows t !! i = Some row ->
  let errors := (validate_graph py_float fs filepath).2 in
  let certainty := get row "certainty" (Some "") in
  (forall s, InvalidCertainty (i + 2) s ∈ errors
             <-> certainty = Some s /\ s <> "" /\ py_float s = None)
  /\ (forall c, CertaintyOutOfRange (i + 2) c ∈ errors
                <-> exists s, certainty = Some s /\ s <> ""
                      /\ py_float s = Some c /\ in_unit_interval c = false)
  /\ (certainty = None \/ certainty = Some "" ->
      forall m, m ∈ errors -> row_of m = Some (i + 2) -> kind_of m <> Certainty)
  /\ (reads_the_literals py_float ->
      (certainty = Some "0.0" \/ certainty = Some "1.0" ->
       forall m, m ∈ errors -> row_of m = Some (i + 2) -> kind_of m <> Certainty)
      /\ (certainty = Some "1.1" ->
          CertaintyOutOfRange (i + 2) 0x1.199999999999ap+0%float ∈ errors
          /\ forall s, InvalidCertainty (i + 2) s ∉ errors)
      /\ (certainty = Some "-0.1" ->
          CertaintyOutOfRange (i + 2) (- 0x1.999999999999ap-4)%float ∈ errors
          /\ forall s, InvalidCertainty (i + 2) s ∉ errors)
      /\ (certainty = Some "abc" ->
          InvalidCertainty (i + 2) "abc" ∈ errors
          /\ forall c, CertaintyOutOfRange (i + 2) c ∉ errors)).
Proof.
  intros Hfs Hnames Hrow errors certainty.
  assert (Hinv : forall s, InvalidCertainty (i + 2) s ∈ errors
             <-> certainty = Some s /\ s <> "" /\ py_float s = None).
  { intros s. subst errors.
    rewrite (validate_graph_messages_of_row py_float fs filepath t names i row
               (InvalidCertainty (i + 2) s) Hfs Hnames Hrow eq_refl).
    rewrite row_messages_of_kind. cbn [kind_of].
    rewrite check_certainty_invalid. naive_solver. }
  assert (Hout : forall c, CertaintyOutOfRange (i + 2) c ∈ errors
                <-> exists s, certainty = Some s /\ s <> ""
                      /\ py_float s = Some c /\ in_unit_interval c = false).
  { intros c. subst errors.
    rewrite (validate_graph_messages_of_row py_float fs filepath t names i row
               (CertaintyOutOfRange (i + 2) c) Hfs Hnames Hrow eq_refl).
    rewrite row_messages_of_kind. cbn [kind_of].
    rewrite check_certainty_out_of_range. naive_solver. }
  split; [exact Hinv|]. split; [exact Hout|]. split.
  - intros Hc. apply no_certainty_message.
    + intros s. rewrite Hinv. destruct Hc as [Hc|Hc]; rewrite Hc; naive_solver.
    + intros c. rewrite Hout. destruct Hc as [Hc|Hc]; rewrite Hc; naive_solver.
  - intros (H00 & H10 & H11 & Hm01 & Habc).
    split; [|split; [|split]].
    + intros Hc. apply no_certainty_message.
      * intros s. rewrite Hinv.
        destruct Hc as [Hc|Hc]; rewrite Hc; intros ([= <-] & _ & ?); congruence.
      * intros c. rewrite Hout.
        destruct Hc as [Hc|Hc]; rewrite Hc; intros (s & [= <-] & _ & Hp & Hr);
          rewrite ?H00, ?H10 in Hp; injection Hp as <-; discriminate.
    + intros Hc. split.
      * apply Hout. exists "1.1". done.
      * intros s. rewrite Hinv, Hc. intros ([= <-] & _ & Hp). congruence.
    + intros Hc. split.
      * apply Hout. exists "-0.1". done.
      * intros s. rewrite Hinv, Hc. intros ([= <-] & _ & Hp). congruence.
    + intros Hc. split.
      * apply Hinv. done.
      * intros c. rewrite Hout, Hc. intros (s & [= <-] & _ & Hp & _). congruence.
Qed.

Lemma validate_graph_certainty_witness :
  CertaintyOutOfRange 4 0x1.199999999999ap+0%float
    ∈ (validate_graph decimal_float {[ "graph.tsv" := sample_graph ]} "graph.tsv").2
  /\ InvalidCertainty 6 "abc"
    ∈ (validate_graph decimal_float {[ "graph.tsv" := sample_graph ]} "graph.tsv").2.
Proof.
  split.
  - apply (validate_graph_certainty decimal_float
             {[ "graph.tsv" := sample_graph ]} "graph.tsv" sample_graph
             REQUIRED_FIELDS 2
             (DictReader.make_row REQUIRED_FIELDS
                (sample_record "2024-01-15" "a1" "item" "fact" "1.1" "" "" "hello again"))
             (singleton_file _ _) eq_refl eq_refl).
    + exact decimal_float_reads_the_literals.
    + vm_compute. reflexivity.
  - apply (validate_graph_certainty decimal_float
             {[ "graph.tsv" := sample_graph ]} "graph.tsv" sample_graph
             REQUIRED_FIELDS 4
             (DictReader.make_row REQUIRED_FIELDS
                (sample_record "not-a-date" "" "item" "" "abc" "" "" ""))
             (singleton_file _ _) eq_refl eq_refl).
    + exact decimal_float_reads_the_literals.
    + vm_compute. reflexivity.
Defined.


(** C8: for the row at index [i] (row [i + 2]), [validate_graph] flags the
    archived date exactly when it is a non-empty text other than "ACTIVE"
    that does not begin with four digits, a hyphen, two digits, a hyphen
    and two digits; "ACTIVE" and "2024-01-15" pass, "2024-1-15" and
    "not-a-date" are flagged. *)
Theorem validate_graph_archived_date
    (py_float : string -> option float) (fs : filesystem) (filepath : string)
    (t : table) (names : list string) (i : nat) (row : gmap string field) :
  fs !! filepath = Some t ->
  DictReader.fieldnames t = Some names ->
  DictReader.rows t !! i = Some row ->
  let errors := (validate_graph py_float fs filepath).2 in
  let archived := get row "archived_date" (Some "") in
  (forall a, InvalidArchivedDate (i + 2) a ∈ errors
             <-> archived = Some a /\ a <> "" /\ a <> "ACTIVE"
                 /\ ~ begins_with_iso_date a)
  /\ (archived = Some "ACTIVE" \/ archived = Some "2024-01-15" ->
      forall a, InvalidArchivedDate (i + 2) a ∉ errors)
  /\ (archived = Some "2024-1-15" ->
      InvalidArchivedDate (i + 2) "2024-1-15" ∈ errors)
  /\ (archived = Some "not-a-date" ->
      InvalidArchivedDate (i + 2) "not-a-date" ∈ errors).
Proof.
  intros Hfs Hnames Hrow errors archived.
  assert (Hiff : forall a, InvalidArchivedDate (i + 2) a ∈ errors
             <-> archived = Some a /\ a <> "" /\ a <> "ACTIVE"
                 /\ ~ begins_with_iso_date a).
  { intros a. subst errors.
    rewrite (validate_graph_messages_of_row py_float fs filepath t names i row
               (InvalidArchivedDate (i + 2) a) Hfs Hnames Hrow eq_refl).
    rewrite row_messages_of_kind. cbn [kind_of].
    rewrite check_archived_date_invalid. subst archived. tauto. }
  split; [exact Hiff|]. split; [|split].
  - intros Ha a. rewrite Hiff. intros (Hs & _ & Hact & Hdate).
    destruct Ha as [Ha|Ha]; rewrite Ha in Hs; injection Hs as <-; [done|].
    apply Hdate, match_iso_date_spec. reflexivity.
  - intros Ha. apply Hiff. split; [done|]. split; [done|]. split; [done|].
    rewrite <- match_iso_date_spec. done.
  - intros Ha. apply Hiff. split; [done|]. split; [done|]. split; [done|].
    rewrite <- match_iso_date_spec. done.
Qed.

Lemma validate_graph_archived_date_witness :
  InvalidArchivedDate 5 "2024-1-15"
    ∈ (validate_graph decimal_float {[ "graph.tsv" := sample_graph ]} "graph.tsv").2.
Proof.
  apply (validate_graph_archived_date decimal_float
           {[ "graph.tsv" := sample_graph ]} "graph.tsv" sample_graph
           REQUIRED_FIELDS 3
           (DictReader.make_row REQUIRED_FIELDS
              (sample_record "2024-1-15" "a3" "link" "link" "-0.1" "" "a2" ""))
           (singleton_file _ _) eq_refl eq_refl).
  vm_compute. reflexivity.
Defined.


(** C9: [validate_graph] answers valid exactly when its list of messages
    is empty; on a file that exists, whose header has every required field
    and whose rows have distinct ids and pass every check, it answers
    [(true, [])]. *)
Theorem validate_graph_valid_iff_no_errors
    (py_float : string -> option float) (fs : filesystem) (filepath : string) :
  ((validate_graph py_float fs filepath).1 = true
   <-> (validate_graph py_float fs filepath).2 = [])
  /\ (forall t names,
        fs !! filepath = Some t ->
        DictReader.fieldnames t = Some names ->
        (forall f, f ∈ REQUIRED_FIELDS -> f ∈ names) ->
        NoDup (id_of <$> DictReader.rows t) ->
        (forall row, row ∈ DictReader.rows t -> row_ok py_float row) ->
        validate_graph py_float fs filepath = (true, [])).
Proof.
  split.
  - destruct (fs !! filepath) as [t|] eqn:Hfs.
    + destruct (DictReader.fieldnames t) as [names|] eqn:Hnames.
      * rewrite (validate_graph_with_header py_float fs filepath t names Hfs Hnames).
        cbn [fst snd]. rewrite Nat.eqb_eq. apply length_zero_iff_nil.
      * unfold validate_graph. rewrite Hfs, Hnames. done.
    + unfold validate_graph. rewrite Hfs. done.
  - intros t names Hfs Hnames Hreq Hnd Hok.
    rewrite (validate_graph_with_header py_float fs filepath t names Hfs Hnames).
    rewrite loop_messages_ok by (try done; set_solver).
    assert (header_messages names = []) as ->; [|done].
    unfold header_messages. case_decide as Hm; [|done].
    exfalso. apply Hm. apply set_eq. intros f.
    rewrite elem_of_difference, !elem_of_list_to_set. set_solver.
Qed.

Lemma validate_graph_valid_iff_no_errors_witness :
  validate_graph decimal_float {[ "graph.tsv" := sample_valid ]} "graph.tsv"
  = (true, []).
Proof.
  apply (validate_graph_valid_iff_no_errors decimal_float
           {[ "graph.tsv" := sample_valid ]} "graph.tsv")
    with (t := sample_valid) (names := REQUIRED_FIELDS).
  - apply singleton_file.
  - reflexivity.
  - intros f Hf. exact Hf.
  - by_computation.
  - exact sample_valid_rows_ok.
Defined.

(** C10: when the header declares [archived_date] but no [id] column and
    some row is active, [load_graph] raises [KeyError] for "id", and so
    does [search]; the validator, reading the same rows, takes the empty
    text for the missing id instead. *)
Theorem load_graph_raises_without_id_column
    (fs : filesystem) (filepath : string) (t : table) (names : list string) :
  fs !! filepath = Some t ->
  DictReader.fieldnames t = Some names ->
  "archived_date" ∈ names ->
  "id" ∉ names ->
  (exists row, row ∈ DictReader.rows t /\ is_active row = true) ->
  load_graph fs filepath = Raise (KeyError "id")
  /\ (forall json_loads embed query top_k,
        search json_loads embed fs filepath query top_k = ([], Raise (KeyError "id")))
  /\ (forall row, row ∈ DictReader.rows t -> id_of row = Some "").
Proof.
  intros Hfs Hnames _ Hid Hactive.
  assert (Hrows : forall row, row ∈ DictReader.rows t -> row !! "id" = None)
    by (intros row; by apply rows_undeclared with names).
  assert (Hload : load_graph fs filepath = Raise (KeyError "id")).
  { unfold load_graph. rewrite Hfs. by apply load_graph_rows_no_id. }
  split; [exact Hload|split].
  - intros. unfold search. by rewrite Hload.
  - intros row Hrow. unfold id_of, get. by rewrite Hrows.
Qed.

Lemma load_graph_raises_without_id_column_witness :
  load_graph {[ "graph.tsv" := no_id_file ]} "graph.tsv" = Raise (KeyError "id")
  /\ (forall json_loads embed query top_k,
        search json_loads embed {[ "graph.tsv" := no_id_file ]} "graph.tsv" query top_k
        = ([], Raise (KeyError "id")))
  /\ (forall row, row ∈ DictReader.rows no_id_file -> id_of row = Some "").
Proof.
  apply (load_graph_raises_without_id_column
           {[ "graph.tsv" := no_id_file ]} "graph.tsv" no_id_file
           ["archived_date"; "content"]).
  - apply singleton_file.
  - reflexivity.
  - by_computation.
  - by_computation.
  - exists (DictReader.make_row ["archived_date"; "content"] ["ACTIVE"; "hello"]).
    split; [|by vm_compute]. by_computation.
Defined.



































